(** * Analog_Clock.py: a shallow embedding and its verified properties

    The program is one class, [AnalogClock], and a frame loop.  The embedding
    follows the source line by line:

    - Python [int] is [Z]; Python [float] is the kernel's binary64
      ([PrimFloat.float], round to nearest even, as CPython's C doubles);
      a value that may be either is a [num], with Python's coercion rules.
    - Python [str] is a list of Unicode code points.
    - The [THEMES] dictionary is a finite map keyed by strings; a missing key
      raises [KeyError].
    - Methods are computations in a state-and-exception monad over the clock
      object, the window surface (a log of the drawing calls issued on it) and
      the log of HTTP requests sent.
    - What the program reads from outside is passed in: the value returned by
      each [datetime.now()], the outcome of the HTTP request, the events of
      each frame.  [math.cos], [math.sin] (libm) and [strftime] (libc, locale)
      are parameters of the development.
    - The errors of the arithmetic are Python's: an int too large for a float
      raises OverflowError, the cosine or sine of an infinity raises
      ValueError.  A pygame call can refuse its arguments: text with a null
      character, a coordinate or radius outside 16 bits and a negative radius
      are refused as pygame refuses them; whatever else pygame refuses is a
      parameter of the development. *)

From Stdlib Require Import ZArith QArith Floats Uint63 List String Ascii Lia Bool.
From stdpp Require Import base option list gmap strings.
Import ListNotations.

Open Scope Z_scope.

(* 0.7 and 0.9 are read as the nearest doubles, as Python reads them. *)
#[local] Set Warnings "-inexact-float".

(* A lemma depends on the section variables its statement names, no more. *)
#[local] Set Default Proof Using "Type".

(** ** Python values *)

(** [str]: a sequence of code points. *)
Abbreviation str := (list N).

(** A literal of ASCII characters (every literal of the source is one). *)
Definition lit (s : string) : str := map N_of_ascii (list_ascii_of_string s).

(** [Py_UNICODE_ISSPACE]: the code points [str.strip()] removes. *)
Definition isspace (c : N) : bool :=
  ((9 <=? c) && (c <=? 13) || (28 <=? c) && (c <=? 32)
   || (c =? 133) || (c =? 160) || (c =? 5760)
   || (8192 <=? c) && (c <=? 8202)
   || (c =? 8232) || (c =? 8233) || (c =? 8239) || (c =? 8287)
   || (c =? 12288))%N.

Fixpoint lstrip (s : str) : str :=
  match s with
  | c :: s' => if isspace c then lstrip s' else s
  | [] => []
  end.

Definition rstrip (s : str) : str := rev (lstrip (rev s)).

(** [str.strip()]: skip whitespace from the left, then from the right of what
    is left. *)
Definition strip (s : str) : str := rstrip (lstrip s).

(** A number: [int] or [float]. *)
Inductive num : Type :=
| Int (z : Z)
| Flt (f : float).

(** [float(z)]: the nearest double, ties to even, for a [z] that has one.
    (Where [z] rounds beyond the largest double this gives an infinity and
    Python raises OverflowError: see [arith] below, which the methods use.) *)
Definition float_of_int (z : Z) : float :=
  SF2Prim (binary_normalize prec emax z 0 false).

Definition to_float (n : num) : float :=
  match n with
  | Int z => float_of_int z
  | Flt f => f
  end.

(** [a + b], [a - b], [a * b]: integer arithmetic on two ints, otherwise both
    operands are converted to float. *)
Definition num_add (a b : num) : num :=
  match a, b with
  | Int x, Int y => Int (x + y)
  | _, _ => Flt (to_float a + to_float b)
  end.

Definition num_sub (a b : num) : num :=
  match a, b with
  | Int x, Int y => Int (x - y)
  | _, _ => Flt (to_float a - to_float b)
  end.

Definition num_mul (a b : num) : num :=
  match a, b with
  | Int x, Int y => Int (x * y)
  | _, _ => Flt (to_float a * to_float b)
  end.

(** [a / b] on ints, true division: the correctly rounded quotient, which for
    operands that are exact doubles is the division of their conversions.
    (Division by zero raises; the clock divides by the literal 1_000_000.) *)
Definition truediv (a b : Z) : float := (float_of_int a / float_of_int b)%float.

(** [a < b] on numbers.  (With a float operand the int one is converted,
    which the clock's integers, far below 2^53, survive exactly.) *)
Definition num_ltb (a b : num) : bool :=
  match a, b with
  | Int x, Int y => x <? y
  | _, _ => (to_float a <? to_float b)%float
  end.

Declare Scope num_scope.
Delimit Scope num_scope with num.
Bind Scope num_scope with num.
Infix "+" := num_add : num_scope.
Infix "-" := num_sub : num_scope.
Infix "*" := num_mul : num_scope.

(** [math.radians(x)]: [x * (pi / 180)] in doubles. *)
Definition pi : float := 0x1.921fb54442d18p+1%float.
Definition degToRad : float := (pi / 180)%float.
Definition radians (x : num) : float := (to_float x * degToRad)%float.

(** The exact value of a finite float, as a rational. *)
Definition SF2Q (x : spec_float) : option Q :=
  match x with
  | S754_zero _ => Some 0%Q
  | S754_finite s m e =>
      let v := (inject_Z (Z.pos m) * Qpower 2 e)%Q in
      Some (if s then Qopp v else v)
  | _ => None
  end.

Definition float_value (f : float) : option Q := SF2Q (Prim2SF f).

Definition num_value (n : num) : option Q :=
  match n with
  | Int z => Some (inject_Z z)
  | Flt f => float_value f
  end.

(** ** datetime *)

Module datetime.
Record t : Type := mk {
  year : Z; month : Z; day : Z;
  hour : Z; minute : Z; second : Z; microsecond : Z
}.

(** The ranges [datetime] guarantees for the time of day. *)
Definition valid (d : t) : Prop :=
  0 <= hour d < 24 /\ 0 <= minute d < 60 /\ 0 <= second d < 60
  /\ 0 <= microsecond d < 1000000.
End datetime.

(** ** Themes *)

(** A colour: an RGB or RGBA tuple. *)
Abbreviation color := (list Z).

Definition light_theme : gmap string color :=
  list_to_map [
    ("background", [225; 239; 240]);
    ("face_outer", [45; 45; 45]);
    ("face_middle", [229; 229; 229]);
    ("face_inner", [255; 255; 255]);
    ("hand_hour", [45; 45; 45]);
    ("hand_minute", [45; 45; 45]);
    ("hand_second", [255; 0; 0]);
    ("mark_color", [45; 45; 45]);
    ("shadow", [0; 0; 0; 50]);
    ("text_color", [0; 0; 0])
  ]%string.

Definition dark_theme : gmap string color :=
  list_to_map [
    ("background", [30; 30; 30]);
    ("face_outer", [100; 100; 100]);
    ("face_middle", [70; 70; 70]);
    ("face_inner", [50; 50; 50]);
    ("hand_hour", [255; 255; 255]);
    ("hand_minute", [200; 200; 200]);
    ("hand_second", [255; 69; 0]);
    ("mark_color", [255; 255; 255]);
    ("shadow", [0; 0; 0; 80]);
    ("text_color", [255; 255; 255])
  ]%string.

Definition THEMES : gmap string (gmap string color) :=
  list_to_map [("light", light_theme); ("dark", dark_theme)]%string.

(** ** The world: the clock object and what it acts on *)

(** A point passed to a drawing call: each coordinate an int or a float. *)
Abbreviation point := (num * num)%type.

(** The calls the program issues on the window surface. *)
Inductive draw_op : Type :=
| Fill (c : color)
    (* window.fill(c) *)
| Blit (text : str) (antialias : bool) (c : color) (font_size : Z) (center : Z * Z)
    (* window.blit(font.render(text, antialias, c), rect centred at center) *)
| AACircle (x y r : Z) (c : color)
    (* pygame.gfxdraw.aacircle(window, x, y, r, c) *)
| FilledCircle (x y r : Z) (c : color)
    (* pygame.gfxdraw.filled_circle(window, x, y, r, c) *)
| Line (c : color) (start_pos end_pos : point) (width : Z)
    (* pygame.draw.line(window, c, start_pos, end_pos, width) *)
| DisplayUpdate.
    (* pygame.display.update() *)

Record AnalogClock : Type := mkClock {
  size : Z;
  position : Z * Z;
  hour : Z;
  minute : Z;
  second : num;
  milliseconds : Z;
  font : Z;                      (* pygame.font.Font(None, 36): the point size *)
  current_date : option str;     (* None: the attribute is not set yet *)
  weather : str
}.

Record world : Type := mkWorld {
  self : AnalogClock;
  window : list draw_op;         (* drawing calls issued so far, oldest first *)
  requests : list string         (* URLs requested so far, oldest first *)
}.

(** ** Exceptions and the monad *)

Inductive exn : Type :=
| KeyError (key : string)
| AttributeError (name : string)
| RequestException (what : string)   (* any error requests.get raises *)
| SystemExit
| ValueError
| OverflowError
| pygame_error
| OtherException (name : string).    (* any other exception of a library *)

Inductive result (A : Type) : Type :=
| Ok (a : A)
| Raise (e : exn).
Arguments Ok {A} a.
Arguments Raise {A} e.

Definition M (A : Type) : Type := world -> result A * world.

#[export] Instance M_ret : MRet M := fun A a w => (Ok a, w).

#[export] Instance M_bind : MBind M := fun A B k c w =>
  match c w with
  | (Ok a, w') => k a w'
  | (Raise e, w') => (Raise e, w')
  end.

Definition raise {A} (e : exn) : M A := fun w => (Raise e, w).

(** [try: body  except: handler] with a bare [except], which catches
    everything. *)
Definition try_except {A} (body handler : M A) : M A := fun w =>
  match body w with
  | (Ok a, w') => (Ok a, w')
  | (Raise _, w') => handler w'
  end.

Definition get_self : M AnalogClock := fun w => (Ok (self w), w).

Definition set_self (f : AnalogClock -> AnalogClock) : M unit := fun w =>
  (Ok tt, mkWorld (f (self w)) (window w) (requests w)).

(** Issue one drawing call on the window. *)
Definition emit (op : draw_op) : M unit := fun w =>
  (Ok tt, mkWorld (self w) (window w ++ [op]) (requests w)).

(** [d[key]] *)
Definition getitem {V} (d : gmap string V) (key : string) : M V :=
  match d !! key with
  | Some v => mret v
  | None => raise (KeyError key)
  end.

(** [for x in l: body(x)] *)
Fixpoint for_each {A} (l : list A) (body : A -> M unit) : M unit :=
  match l with
  | [] => mret tt
  | x :: l' => body x ;; for_each l' body
  end.

(** ** Arithmetic that can raise *)

(** [float(z)] raises OverflowError when [z] rounds beyond the largest double:
    from [2^1024 - 2^970] on, in absolute value. *)
Definition float_limit : Z := 2 ^ 1024 - 2 ^ 970.

Definition overflows (z : Z) : bool := float_limit <=? Z.abs z.

(** A number that float arithmetic can take. *)
Definition safe (n : num) : bool :=
  match n with
  | Int z => negb (overflows z)
  | Flt _ => true
  end.

(** The operands of [a + b], [a - b] or [a * b] raise nothing: both are
    ints, or the one that is converted can be. *)
Definition convertible (a b : num) : bool :=
  match a, b with
  | Int _, Int _ => true
  | _, _ => safe a && safe b
  end.

Definition arith (op : num -> num -> num) (a b : num) : M num :=
  if convertible a b then mret (op a b) else raise OverflowError.

Definition addM : num -> num -> M num := arith num_add.
Definition subM : num -> num -> M num := arith num_sub.
Definition mulM : num -> num -> M num := arith num_mul.

(** [math.radians(x)], which converts an int [x] first. *)
Definition radiansM (x : num) : M float :=
  if safe x then mret (radians x) else raise OverflowError.

(** ** What pygame is known to refuse *)

Definition int16 (z : Z) : bool := (-32768 <=? z) && (z <=? 32767).

(** [font.render] raises ValueError on text with a null character; the
    [gfxdraw] circles take 16-bit arguments (OverflowError beyond) and raise
    pygame.error on a negative radius. *)
Definition known_rejection (op : draw_op) : option exn :=
  match op with
  | Blit text _ _ _ _ =>
      if existsb (N.eqb 0) text then Some ValueError else None
  | AACircle x y r _ | FilledCircle x y r _ =>
      if negb (int16 x && int16 y && int16 r) then Some OverflowError
      else if r <? 0 then Some pygame_error
      else None
  | _ => None
  end.

(** ** The HTTP request *)

Record Response : Type := mkResponse {
  status_code : Z;
  text : str
}.

(** What [requests.get] does: return a response or raise. *)
Inductive outcome : Type :=
| Returned (r : Response)
| Raised (e : exn).

Definition requests_get (url : string) (o : outcome) : M Response := fun w =>
  let w' := mkWorld (self w) (window w) (requests w ++ [url]) in
  match o with
  | Returned r => (Ok r, w')
  | Raised e => (Raise e, w')
  end.

(** ** class AnalogClock *)

Definition set_hour (v : Z) (c : AnalogClock) : AnalogClock :=
  mkClock (size c) (position c) v (minute c) (second c) (milliseconds c)
          (font c) (current_date c) (weather c).
Definition set_minute (v : Z) (c : AnalogClock) : AnalogClock :=
  mkClock (size c) (position c) (hour c) v (second c) (milliseconds c)
          (font c) (current_date c) (weather c).
Definition set_second (v : num) (c : AnalogClock) : AnalogClock :=
  mkClock (size c) (position c) (hour c) (minute c) v (milliseconds c)
          (font c) (current_date c) (weather c).
Definition set_current_date (v : str) (c : AnalogClock) : AnalogClock :=
  mkClock (size c) (position c) (hour c) (minute c) (second c) (milliseconds c)
          (font c) (Some v) (weather c).
Definition set_weather (v : str) (c : AnalogClock) : AnalogClock :=
  mkClock (size c) (position c) (hour c) (minute c) (second c) (milliseconds c)
          (font c) (current_date c) v.

Definition weather_url : string := "https://wttr.in/?format=%t+%C".

(** The clock the attribute assignments of [__init__] build, before its call
    of [update_weather]: the angles at 0, the 36-point font, no date yet,
    and "Fetching..." as the weather. *)
Definition fresh_clock (size0 : Z) (position0 : Z * Z) : AnalogClock :=
  mkClock size0 position0 0 0 (Int 0) 0 36 None (lit "Fetching...").

(** ** Sample inputs

    Stand-ins for libm and [strftime] (constant functions) and for a pygame
    that refuses nothing beyond what is known, a clock reading
    (Sunday 23 March 2025, 14:30:15.250000) and the one a microsecond later,
    and the world right after [AnalogClock(250, (300, 300))] when the weather
    request was answered with an error status. *)
Definition cos0 : float -> float := fun _ => 1%float.
Definition sin0 : float -> float := fun _ => 0%float.
Definition accepts_all : draw_op -> option exn := fun _ => None.
Definition strftime0 : datetime.t -> string -> str :=
  fun _ _ => lit "Sunday, March 23, 2025".
Definition now0 : datetime.t := datetime.mk 2025 3 23 14 30 15 250000.
Definition now1 : datetime.t := datetime.mk 2025 3 23 14 30 15 250001.
Definition world0 : world :=
  mkWorld (fresh_clock 250 (300, 300)) [] [weather_url].

Section AnalogClock.

(** libm's cosine and sine, and [datetime.strftime]. *)
Variables cos sin : float -> float.
Variable strftime : datetime.t -> string -> str.

(** The exception pygame raises on a drawing call for any reason other than
    the known ones (a text the font cannot take, a rectangle out of range,
    ...), if it raises one. *)
Variable pygame_refuses : draw_op -> option exn.

(** The exception a drawing call raises, if any.  [window.fill] with a theme
    colour and [pygame.display.update()] are always accepted. *)
Definition rejection (op : draw_op) : option exn :=
  match op with
  | Fill _ | DisplayUpdate => None
  | _ =>
      match known_rejection op with
      | Some e => Some e
      | None => pygame_refuses op
      end
  end.

(** A pygame drawing call: it raises, or it is issued on the window. *)
Definition call (op : draw_op) : M unit :=
  match rejection op with
  | Some e => raise e
  | None => emit op
  end.

(** [math.cos(x)], [math.sin(x)]: ValueError on an infinity. *)
Definition cosM (x : float) : M float :=
  if is_infinity x then raise ValueError else mret (cos x).
Definition sinM (x : float) : M float :=
  if is_infinity x then raise ValueError else mret (sin x).

Definition update (now : datetime.t) : M unit :=
  set_self (set_hour (datetime.hour now mod 12)) ;;
  set_self (set_minute (datetime.minute now)) ;;
  set_self (set_second
    (Int (datetime.second now) + Flt (truediv (datetime.microsecond now) 1000000))%num) ;;
  set_self (set_current_date (strftime now "%A, %B %d, %Y")).

(** [o] is what the one request of this call does. *)
Definition update_weather (o : outcome) : M unit :=
  try_except
    (response ← requests_get weather_url o;
     if status_code response =? 200
     then set_self (set_weather (strip (text response)))
     else mret tt)
    (set_self (set_weather (lit "Weather unavailable"))).

(** [AnalogClock(size, position)]: the attribute assignments of [__init__],
    then its call of [update_weather], on a window and a request log that
    exist already. *)
Definition __init__ (size0 : Z) (position0 : Z * Z) (o : outcome)
    (window0 : list draw_op) (requests0 : list string) : result unit * world :=
  update_weather o (mkWorld (fresh_clock size0 position0) window0 requests0).

(** [now] is the value of the [datetime.now()] in the body. *)
Definition get_theme (now : datetime.t) : M (gmap string color) :=
  let current_hour := datetime.hour now in
  if (18 <=? current_hour) || (current_hour <? 6)
  then getitem THEMES "dark"
  else getitem THEMES "light".

Definition __draw_circle (position0 : Z * Z) (size0 : Z) (c : color) : M unit :=
  call (AACircle (fst position0) (snd position0) size0 c) ;;
  call (FilledCircle (fst position0) (snd position0) size0 c).

Definition __draw_face (theme : gmap string color) : M unit :=
  s ← get_self;
  c ← getitem theme "face_outer";
  __draw_circle (position s) (size s) c ;;
  c ← getitem theme "face_middle";
  __draw_circle (position s) (size s - 30) c ;;
  c ← getitem theme "face_inner";
  __draw_circle (position s) (size s - 40) c.

Definition __draw_hour_marks (theme : gmap string color) : M unit :=
  s ← get_self;
  for_each (seqZ 0 12) (fun i =>
    d ← mulM (Int i) (Int 30);
    angle ← radiansM d;
    ca ← cosM angle;
    t ← mulM (Int (size s - 20)) (Flt ca);
    x1 ← addM (Int (fst (position s))) t;
    sa ← sinM angle;
    t ← mulM (Int (size s - 20)) (Flt sa);
    y1 ← subM (Int (snd (position s))) t;
    ca ← cosM angle;
    t ← mulM (Int (size s - 40)) (Flt ca);
    x2 ← addM (Int (fst (position s))) t;
    sa ← sinM angle;
    t ← mulM (Int (size s - 40)) (Flt sa);
    y2 ← subM (Int (snd (position s))) t;
    c ← getitem theme "mark_color";
    call (Line c (x1, y1) (x2, y2) 5)).

Definition __draw_hand (angle length : num) (width : Z) (c : color)
    (shadow : bool) (theme : gmap string color) : M unit :=
  s ← get_self;
  d ← subM angle (Int 90);
  angle ← radiansM d;
  ca ← cosM angle;
  t ← mulM length (Flt ca);
  x ← addM (Int (fst (position s))) t;
  sa ← sinM angle;
  t ← mulM length (Flt sa);
  y ← addM (Int (snd (position s))) t;
  (if shadow then
     let shadow_offset := 5 in
     ca ← cosM angle;
     t ← mulM length (Flt ca);
     u ← addM (Int (fst (position s))) t;
     shadow_x ← addM u (Int shadow_offset);
     sa ← sinM angle;
     t ← mulM length (Flt sa);
     u ← addM (Int (snd (position s))) t;
     shadow_y ← addM u (Int shadow_offset);
     sc ← getitem theme "shadow";
     call (Line sc (Int (fst (position s) + shadow_offset),
                    Int (snd (position s) + shadow_offset))
                (shadow_x, shadow_y) width)
   else mret tt) ;;
  call (Line c (Int (fst (position s)), Int (snd (position s))) (x, y) width).

Definition __draw_info_panel (theme : gmap string color) : M unit :=
  s ← get_self;
  date ← match current_date s with
         | Some d => mret d
         | None => raise (AttributeError "current_date")
         end;
  c ← getitem theme "text_color";
  call (Blit (date ++ lit " | " ++ weather s) true c (font s) (fst (position s), 50)).

(** The angles [draw] passes for the three hands, when computing them raises
    nothing. *)
Definition hour_angle (s : AnalogClock) : num :=
  (Int (hour s) * Int 30 + Int (minute s) * Flt 0.5)%num.
Definition minute_angle (s : AnalogClock) : num := (Int (minute s) * Int 6)%num.
Definition second_angle (s : AnalogClock) : num := (second s * Int 6)%num.

(** The same three expressions as [draw] evaluates them. *)
Definition hour_angleM (s : AnalogClock) : M num :=
  x ← mulM (Int (hour s)) (Int 30);
  y ← mulM (Int (minute s)) (Flt 0.5);
  addM x y.
Definition minute_angleM (s : AnalogClock) : M num := mulM (Int (minute s)) (Int 6).
Definition second_angleM (s : AnalogClock) : M num := mulM (second s) (Int 6).

(** [now] is the value of the [datetime.now()] that [get_theme] reads. *)
Definition draw (now : datetime.t) : M unit :=
  theme ← get_theme now;
  c ← getitem theme "background";
  emit (Fill c) ;;
  __draw_info_panel theme ;;
  __draw_face theme ;;
  __draw_hour_marks theme ;;
  s ← get_self;
  a ← hour_angleM s;
  l ← mulM (Int (size s)) (Flt 0.5);
  c ← getitem theme "hand_hour";
  __draw_hand a l 8 c true theme ;;
  s ← get_self;
  a ← minute_angleM s;
  l ← mulM (Int (size s)) (Flt 0.7);
  c ← getitem theme "hand_minute";
  __draw_hand a l 6 c true theme ;;
  s ← get_self;
  a ← second_angleM s;
  l ← mulM (Int (size s)) (Flt 0.9);
  c ← getitem theme "hand_second";
  __draw_hand a l 3 c true theme ;;
  s ← get_self;
  c ← getitem theme "face_outer";
  __draw_circle (position s) 10 c.

(** ** The main loop *)

Inductive event : Type :=
| QUIT
| OtherEvent (type : Z).

(** What one iteration reads: the pending events, and the two clock
    readings ([update]'s and [get_theme]'s). *)
Record frame : Type := mkFrame {
  events : list event;
  now_update : datetime.t;
  now_theme : datetime.t
}.

(** [pygame.quit(); exit()] on the first QUIT event. *)
Definition handle_events (evs : list event) : M unit :=
  for_each evs (fun ev =>
    match ev with
    | QUIT => raise SystemExit
    | OtherEvent _ => mret tt
    end).

Definition iteration (f : frame) : M unit :=
  handle_events (events f) ;;
  update (now_update f) ;;
  draw (now_theme f) ;;
  emit DisplayUpdate.

(** The iterations of [while True] that a run reads inputs for. *)
Definition main_loop (frames : list frame) : M unit :=
  for_each frames iteration.

(** The module's top level: the window is created, the clock constructed at
    size 250 and centre (300, 300), and the loop entered. *)
Definition program (o : outcome) (frames : list frame) : result unit * world :=
  match __init__ 250 (300, 300) o [] [] with
  | (Ok _, w) => main_loop frames w
  | (Raise e, w) => (Raise e, w)
  end.


(** ** What [draw] is expected to put on the window *)

(** The theme for a clock reading, and a colour of it. *)
Definition theme_at (now : datetime.t) : gmap string color :=
  if decide (18 <= datetime.hour now \/ datetime.hour now < 6)
  then dark_theme else light_theme.

Definition colour (theme : gmap string color) (key : string) : color :=
  default [] (theme !! key).

(** A filled circle: its anti-aliased outline, then its interior. *)
Definition filled_circle (centre : Z * Z) (r : Z) (c : color) : list draw_op :=
  [AACircle (fst centre) (snd centre) r c; FilledCircle (fst centre) (snd centre) r c].

(** The point at distance [r] from [centre] in direction [a] (radians),
    with y growing upwards ([up = true]) or downwards. *)
Definition polar (centre : Z * Z) (r : num) (a : float) (up : bool) : point :=
  ((Int (fst centre) + r * Flt (cos a))%num,
   if up then (Int (snd centre) - r * Flt (sin a))%num
   else (Int (snd centre) + r * Flt (sin a))%num).

(** The hour mark at [deg] degrees: from radius [size - 20] to radius
    [size - 40], 5 wide. *)
Definition hour_mark (s : AnalogClock) (c : color) (deg : Z) : draw_op :=
  Line c (polar (position s) (Int (size s - 20)) (radians (Int deg)) true)
         (polar (position s) (Int (size s - 40)) (radians (Int deg)) true) 5.

(** A hand: the segment from the centre to the point at distance [length]
    in direction [angle - 90] degrees, y downwards. *)
Definition hand (s : AnalogClock) (angle length : num) (width : Z) (c : color) : draw_op :=
  Line c (Int (fst (position s)), Int (snd (position s)))
         (polar (position s) length (radians (angle - Int 90)%num) false) width.

(** A segment moved by [offset] pixels right and down, in colour [c]. *)
Definition translate (offset : Z) (p : point) : point :=
  ((fst p + Int offset)%num, (snd p + Int offset)%num).

Definition shadow_copy (offset : Z) (c : color) (op : draw_op) : draw_op :=
  match op with
  | Line _ p q width => Line c (translate offset p) (translate offset q) width
  | _ => op
  end.

(** A hand preceded by its shadow. *)
Definition shadowed (theme : gmap string color) (h : draw_op) : list draw_op :=
  [shadow_copy 5 (colour theme "shadow") h; h].

Definition info_ops (theme : gmap string color) (s : AnalogClock) (date : str) : list draw_op :=
  [Fill (colour theme "background");
   Blit (date ++ lit " | " ++ weather s) true (colour theme "text_color")
        (font s) (fst (position s), 50)].

Definition face_ops (theme : gmap string color) (s : AnalogClock) : list draw_op :=
  filled_circle (position s) (size s) (colour theme "face_outer")
  ++ filled_circle (position s) (size s - 30) (colour theme "face_middle")
  ++ filled_circle (position s) (size s - 40) (colour theme "face_inner").

Definition mark_ops (theme : gmap string color) (s : AnalogClock) : list draw_op :=
  map (fun i => hour_mark s (colour theme "mark_color") (i * 30))
      [0; 1; 2; 3; 4; 5; 6; 7; 8; 9; 10; 11].

Definition hour_hand (theme : gmap string color) (s : AnalogClock) : draw_op :=
  hand s (hour_angle s) (Int (size s) * Flt 0.5)%num 8 (colour theme "hand_hour").
Definition minute_hand (theme : gmap string color) (s : AnalogClock) : draw_op :=
  hand s (minute_angle s) (Int (size s) * Flt 0.7)%num 6
       (colour theme "hand_minute").
Definition second_hand (theme : gmap string color) (s : AnalogClock) : draw_op :=
  hand s (second_angle s) (Int (size s) * Flt 0.9)%num 3
       (colour theme "hand_second").

Definition hand_ops (theme : gmap string color) (s : AnalogClock) : list draw_op :=
  shadowed theme (hour_hand theme s)
  ++ shadowed theme (minute_hand theme s)
  ++ shadowed theme (second_hand theme s).

Definition cap_ops (theme : gmap string color) (s : AnalogClock) : list draw_op :=
  filled_circle (position s) 10 (colour theme "face_outer").

Definition frame_ops (theme : gmap string color) (s : AnalogClock) (date : str)
    : list draw_op :=
  info_ops theme s date ++ face_ops theme s ++ mark_ops theme s
  ++ hand_ops theme s ++ cap_ops theme s.

(** The effect of issuing the calls [ops] in order. *)
Definition add_ops (ops : list draw_op) (w : world) : world :=
  mkWorld (self w) (window w ++ ops) (requests w).

(** The keys every theme defines. *)
Definition theme_keys : list string :=
  ["background"; "face_outer"; "face_middle"; "face_inner"; "hand_hour";
   "hand_minute"; "hand_second"; "mark_color"; "shadow"; "text_color"]%string.

Definition complete (theme : gmap string color) : Prop :=
  Forall (fun key => is_Some (theme !! key)) theme_keys.

(** A drawing call that shows the weather text [wx], if it shows text. *)
Definition shows (wx : str) (op : draw_op) : Prop :=
  match op with
  | Blit t _ _ _ _ => exists date : str, t = date ++ lit " | " ++ wx
  | _ => True
  end.

(** A clock that [update] has run on: its date is set. *)
Definition updated (s : AnalogClock) : Prop := is_Some (current_date s).

(** [t] is [s] without its leading and trailing whitespace: [s] is [t]
    between two runs of whitespace, and [t] neither starts nor ends with
    whitespace. *)
Definition trimmed (s t : str) : Prop :=
  exists l r : str,
    s = l ++ t ++ r
    /\ forallb isspace l = true /\ forallb isspace r = true
    /\ (forall c, head t = Some c -> isspace c = false)
    /\ (forall c, last t = Some c -> isspace c = false).

(** The clock after [update] has read [now]. *)
Definition after_update (now : datetime.t) (s : AnalogClock) : AnalogClock :=
  mkClock (size s) (position s) (datetime.hour now mod 12) (datetime.minute now)
          (Flt (float_of_int (datetime.second now)
                + truediv (datetime.microsecond now) 1000000))
          (milliseconds s) (font s) (Some (strftime now "%A, %B %d, %Y"))
          (weather s).

(** The weather text after one [update_weather] whose request did [o], from
    the text [old] before it. *)
Definition weather_after (o : outcome) (old : str) : str :=
  match o with
  | Returned r => if status_code r =? 200 then strip (text r) else old
  | Raised _ => lit "Weather unavailable"
  end.



(** A frame with a QUIT event among its events. *)
Definition quits (f : frame) : bool :=
  existsb (fun ev => match ev with QUIT => true | OtherEvent _ => false end)
          (events f).

(** The response body of the trimming example, and its trimmed form
    (176 is the degree sign). *)
Definition example_body : str := lit " +14" ++ [176%N] ++ lit "C Partly cloudy ".
Definition example_weather : str := lit "+14" ++ [176%N] ++ lit "C Partly cloudy".

(** ** Exhaustive checks over the clock readings *)

(** [n] is finite, its exact value is [q], and [lo <= q < hi]. *)
Definition exact_in (n : num) (q lo hi : Q) : bool :=
  match num_value n with
  | Some v => Qeq_bool v q && Qle_bool lo v && negb (Qle_bool hi v)
  | None => false
  end.

(** The second-hand angle from the second as a float and the microsecond as
    a machine integer, and a sweep over the microseconds of one second: each
    angle is below the next one, and the last one is below 360. *)
Definition angle63 (fs : float) (us : int) : float :=
  ((fs + of_uint63 us / 1000000) * 6)%float.

Definition sweep_step (fs : float) (st : int * float * bool) : int * float * bool :=
  let '(us, prev, ok) := st in
  let us' := (us + 1)%uint63 in
  let cur := angle63 fs us' in
  (us', cur, ok && (prev <? cur)%float).

Definition sweep_end (fs : float) : int * float * bool :=
  Pos.iter (sweep_step fs) (0%uint63, angle63 fs 0, true) 999999.

Definition sweep_verdict (st : int * float * bool) : bool :=
  snd st && (snd (fst st) <? 360)%float.

Definition sweep (fs : float) : bool := sweep_verdict (sweep_end fs).

(** ** Preconditions and specifications of the drawing code *)

(** A drawing call that pygame accepts. *)
Definition accepted (op : draw_op) : bool :=
  match rejection op with
  | Some _ => false
  | None => true
  end.

(** The errors of the arithmetic, and the exceptions the drawing code can
    raise on a clock whose date is set: an error of the arithmetic, or what a
    drawing call raises. *)
Definition arith_error (e : exn) : Prop := e = OverflowError \/ e = ValueError.

Definition raisable (e : exn) : Prop :=
  arith_error e \/ exists op : draw_op, rejection op = Some e.

(** A hand at [angle] that [__draw_hand] can place: converting the angle,
    its cosine and sine, and the conversions of the length and of the centre
    raise nothing. *)
Definition angle_ok (angle : num) : bool :=
  convertible angle (Int 90) && safe (angle - Int 90)%num
  && negb (is_infinity (radians (angle - Int 90)%num)).

Definition hand_ok (s : AnalogClock) (angle length : num) : bool :=
  angle_ok angle && safe length
  && safe (Int (fst (position s))) && safe (Int (snd (position s))).

(** A clock on which [draw] at reading [now] meets no error: its date is
    set, every drawing call of the frame is accepted, and the arithmetic of
    the three hand angles raises nothing. *)
Definition drawable (now : datetime.t) (s : AnalogClock) : bool :=
  match current_date s with
  | Some date =>
      forallb accepted (frame_ops (theme_at now) s date)
      && safe (Int (minute s)) && safe (Int (hour s * 30))
      && angle_ok (hour_angle s) && angle_ok (minute_angle s)
      && angle_ok (second_angle s)
  | None => false
  end.

(** [c] returns [v] or raises an error of the arithmetic, and does nothing
    else; it returns exactly when [ok]. *)
Definition yields {A} (c : M A) (v : A) (ok : Prop) (w : world) : Prop :=
  (c w = (Ok v, w) \/ exists e : exn, arith_error e /\ c w = (Raise e, w))
  /\ (ok <-> c w = (Ok v, w)).

(** [c] ends as [final] or raises an error of the arithmetic and does nothing
    else; under [ok] it ends as [final]. *)
Definition reaches {A} (c : M A) (final : result A * world) (ok : Prop)
    (w : world) : Prop :=
  (c w = final \/ exists e : exn, arith_error e /\ c w = (Raise e, w))
  /\ (ok -> c w = final).

(** [c] only issues drawing calls: all of [expected], in order, when it
    returns, and a first part of them when it raises; it returns exactly when
    [ok] holds and every call of [expected] is accepted. *)
Definition draws (c : M unit) (expected : list draw_op) (ok : Prop) (w : world)
    : Prop :=
  (c w = (Ok tt, add_ops expected w)
   \/ exists (ops : list draw_op) (e : exn),
        ops `prefix_of` expected /\ raisable e
        /\ c w = (Raise e, add_ops ops w))
  /\ (ok /\ forallb accepted expected = true <-> fst (c w) = Ok tt).

(** ** Further notions for the properties of the whole program *)

(** A frame the clock can draw, from a world with clock [s]. *)
Definition frame_drawable (s : AnalogClock) (f : frame) : bool :=
  drawable (now_theme f) (after_update (now_update f) s).


(** The frames of a run that are played: those before the first frame that
    holds a QUIT event. *)
Fixpoint played (frames : list frame) : list frame :=
  match frames with
  | [] => []
  | f :: fs => if quits f then [] else f :: played fs
  end.

(** Sample frames: one with an ordinary event only, one whose second event
    is QUIT; and a clock reading in the second after [now0]. *)
Definition frame0 : frame := mkFrame [OtherEvent 1] now0 now0.
Definition frame_quit : frame := mkFrame [OtherEvent 1; QUIT] now1 now1.
Definition now2 : datetime.t := datetime.mk 2025 3 23 14 30 16 0.

(** A scan of the machine integers 1..[n]: [p] holds at each of them. *)
Definition scan_step (p : int -> bool) (st : int * bool) : int * bool :=
  let '(i, ok) := st in
  ((i + 1)%uint63, ok && p (i + 1)%uint63).

Definition scan (p : int -> bool) (n : positive) : bool :=
  snd (Pos.iter (scan_step p) (0%uint63, true) n).

(** For clock size [sz], the hand lengths [draw] computes are in the order
    hour < minute < second, and below the size itself. *)
Definition lengths_ordered (sz : int) : bool :=
  let z := of_uint63 sz in
  ((z * 0.5 <? z * 0.7) && (z * 0.7 <? z * 0.9) && (z * 0.9 <? z))%float.

(** ** Running the methods *)

Lemma add_ops_app (ops1 ops2 : list draw_op) (w : world) :
  add_ops ops2 (add_ops ops1 w) = add_ops (ops1 ++ ops2) w.
Proof. unfold add_ops; simpl. now rewrite app_assoc. Qed.

Lemma add_ops_nil (w : world) : add_ops [] w = w.
Proof. unfold add_ops. rewrite app_nil_r. now destruct w. Qed.

Lemma add_ops_inj (ops1 ops2 : list draw_op) (w : world) :
  add_ops ops1 w = add_ops ops2 w -> ops1 = ops2.
Proof.
  unfold add_ops. intros H. injection H as H. exact (app_inv_head _ _ _ H).
Qed.

Lemma bind_run {A B} (c : M A) (k : A -> M B) (w w' : world) (a : A) :
  c w = (Ok a, w') -> (c ≫= k) w = k a w'.
Proof. intros H. unfold mbind, M_bind. now rewrite H. Qed.

Lemma bind_raise {A B} (c : M A) (k : A -> M B) (w w' : world) (e : exn) :
  c w = (Raise e, w') -> (c ≫= k) w = (Raise e, w').
Proof. intros H. unfold mbind, M_bind. now rewrite H. Qed.

Lemma bind_assoc {A B C} (c : M A) (f : A -> M B) (k : B -> M C) (w : world) :
  ((c ≫= f) ≫= k) w = (c ≫= fun a => f a ≫= k) w.
Proof. unfold mbind, M_bind. now destruct (c w) as [[a|e] w']. Qed.

Lemma emit_run (op : draw_op) (w : world) : emit op w = (Ok tt, add_ops [op] w).
Proof. reflexivity. Qed.

Lemma get_self_run (w : world) : get_self w = (Ok (self w), w).
Proof. reflexivity. Qed.

Lemma mret_run {A} (a : A) (w : world) : (mret a : M A) w = (Ok a, w).
Proof. reflexivity. Qed.

Lemma getitem_run (theme : gmap string color) (key : string) (w : world) :
  is_Some (theme !! key) -> getitem theme key w = (Ok (colour theme key), w).
Proof. unfold getitem, colour. intros [v ->]. reflexivity. Qed.

Lemma complete_key (theme : gmap string color) (key : string) :
  complete theme -> key ∈ theme_keys -> is_Some (theme !! key).
Proof. intros Hc Hk. exact (proj1 (Forall_forall _ _) Hc key Hk). Qed.

Lemma dark_theme_complete : complete dark_theme.
Proof. unfold complete, theme_keys. repeat constructor; vm_compute; eauto. Qed.

Lemma light_theme_complete : complete light_theme.
Proof. unfold complete, theme_keys. repeat constructor; vm_compute; eauto. Qed.

Lemma theme_at_complete (now : datetime.t) : complete (theme_at now).
Proof.
  unfold theme_at. case_decide;
    [apply dark_theme_complete | apply light_theme_complete].
Qed.

(** The theme [get_theme] returns. *)
Lemma get_theme_run (now : datetime.t) (w : world) :
  get_theme now w = (Ok (theme_at now), w).
Proof.
  unfold get_theme, theme_at. case_decide as Hh.
  - replace ((18 <=? datetime.hour now) || (datetime.hour now <? 6)) with true
      by (symmetry; apply orb_true_iff; lia).
    reflexivity.
  - replace ((18 <=? datetime.hour now) || (datetime.hour now <? 6)) with false
      by (symmetry; apply orb_false_iff; lia).
    reflexivity.
Qed.

Ltac key_in :=
  unfold theme_keys;
  repeat first [apply list_elem_of_here | apply list_elem_of_further].

(** ** The arithmetic *)

Lemma convertible_flt_r (a : num) (f : float) : convertible a (Flt f) = safe a.
Proof. destruct a; simpl; [apply andb_true_r | reflexivity]. Qed.

Lemma convertible_flt_l (f : float) (b : num) : convertible (Flt f) b = safe b.
Proof. reflexivity. Qed.

Lemma num_mul_flt_r (a : num) (f : float) :
  (a * Flt f)%num = Flt (to_float a * f).
Proof. now destruct a. Qed.

Lemma float_limit_large : 65536 < float_limit.
Proof. reflexivity. Qed.

Lemma safe_small (z : Z) : -65536 <= z <= 65536 -> safe (Int z) = true.
Proof.
  intros Hz. unfold safe, overflows. pose proof float_limit_large.
  apply negb_true_iff, Z.leb_gt. lia.
Qed.

Lemma int16_range (z : Z) : int16 z = true <-> -32768 <= z <= 32767.
Proof. unfold int16. rewrite andb_true_iff, !Z.leb_le. tauto. Qed.

(** Any number can be multiplied by or added to a small int literal. *)
Lemma convertible_small (a : num) (z : Z) :
  -65536 <= z <= 65536 -> convertible a (Int z) = safe a || true.
Proof. intros Hz. rewrite orb_true_r. destruct a; simpl; [reflexivity | now apply safe_small]. Qed.

(** ** Computations that return or raise *)

Lemma yields_iff {A} (c : M A) (v : A) (ok ok' : Prop) (w : world) :
  yields c v ok w -> (ok' <-> ok) -> yields c v ok' w.
Proof. intros [H1 H2] H. split; [exact H1 | now rewrite H]. Qed.

Lemma yields_mret {A} (v : A) (w : world) : yields (mret v) v True w.
Proof. split; [now left | easy]. Qed.

Lemma yields_get_self (w : world) : yields get_self (self w) True w.
Proof. split; [now left | easy]. Qed.

Lemma yields_getitem (theme : gmap string color) (key : string) (w : world) :
  is_Some (theme !! key) -> yields (getitem theme key) (colour theme key) True w.
Proof.
  intros H. split; [left | split; intros _; [|exact I]]; now apply getitem_run.
Qed.

Lemma yields_arith (op : num -> num -> num) (a b : num) (w : world) :
  yields (arith op a b) (op a b) (convertible a b = true) w.
Proof.
  unfold arith. destruct (convertible a b).
  - split; [now left | easy].
  - split; [right; exists OverflowError; split; [now left | reflexivity]|].
    split; [discriminate | intros [=]].
Qed.

Lemma yields_addM (a b : num) (w : world) :
  yields (addM a b) (a + b)%num (convertible a b = true) w.
Proof. apply yields_arith. Qed.

Lemma yields_subM (a b : num) (w : world) :
  yields (subM a b) (a - b)%num (convertible a b = true) w.
Proof. apply yields_arith. Qed.

Lemma yields_mulM (a b : num) (w : world) :
  yields (mulM a b) (a * b)%num (convertible a b = true) w.
Proof. apply yields_arith. Qed.

Lemma yields_radiansM (x : num) (w : world) :
  yields (radiansM x) (radians x) (safe x = true) w.
Proof.
  unfold radiansM. destruct (safe x).
  - split; [now left | easy].
  - split; [right; exists OverflowError; split; [now left | reflexivity]|].
    split; [discriminate | intros [=]].
Qed.

Lemma yields_cosM (x : float) (w : world) :
  yields (cosM x) (cos x) (is_infinity x = false) w.
Proof.
  unfold cosM. destruct (is_infinity x).
  - split; [right; exists ValueError; split; [now right | reflexivity]|].
    split; [discriminate | intros [=]].
  - split; [now left | easy].
Qed.

Lemma yields_sinM (x : float) (w : world) :
  yields (sinM x) (sin x) (is_infinity x = false) w.
Proof.
  unfold sinM. destruct (is_infinity x).
  - split; [right; exists ValueError; split; [now right | reflexivity]|].
    split; [discriminate | intros [=]].
  - split; [now left | easy].
Qed.

Lemma yields_bind {A B} (c : M A) (k : A -> M B) (v : A) (u : B)
    (ok1 ok2 : Prop) (w : world) :
  yields c v ok1 w -> yields (k v) u ok2 w -> yields (c ≫= k) u (ok1 /\ ok2) w.
Proof.
  intros [[Hc | (e & He & Hc)] Hok1] [Hk Hok2]; unfold yields.
  - rewrite (bind_run _ _ _ _ _ Hc). split; [exact Hk|].
    rewrite <- Hok2. split; [tauto | intros H; split; [now apply Hok1 | exact H]].
  - rewrite (bind_raise _ _ _ _ _ Hc). split; [right; now exists e|].
    split; [|discriminate]. intros [H _]. apply Hok1 in H. congruence.
Qed.

Lemma reaches_iff {A} (c : M A) (final : result A * world) (ok ok' : Prop)
    (w : world) :
  reaches c final ok w -> (ok' -> ok) -> reaches c final ok' w.
Proof. intros [H1 H2] H. split; [exact H1 | intros H'; apply H2, H, H']. Qed.

Lemma reaches_now {A} (c : M A) (final : result A * world) (w : world) :
  c w = final -> reaches c final True w.
Proof. intros H. split; [now left | now intros _]. Qed.

Lemma reaches_bind {A B} (c : M A) (k : A -> M B) (v : A)
    (final : result B * world) (ok1 ok2 : Prop) (w : world) :
  yields c v ok1 w -> reaches (k v) final ok2 w ->
  reaches (c ≫= k) final (ok1 /\ ok2) w.
Proof.
  intros [[Hc | (e & He & Hc)] Hok1] [Hk Hok2]; unfold reaches.
  - rewrite (bind_run _ _ _ _ _ Hc). split; [exact Hk | tauto].
  - rewrite (bind_raise _ _ _ _ _ Hc). split; [right; now exists e|].
    intros [H _]. apply Hok1 in H. congruence.
Qed.

(** A computation that ends raising stops what follows it. *)
Lemma reaches_raise {A B} (c : M A) (k : A -> M B) (x : exn) (ok : Prop)
    (w : world) :
  reaches c (Raise x, w) ok w -> reaches (c ≫= k) (Raise x, w) ok w.
Proof.
  intros [[Hc | (e & He & Hc)] Hok]; unfold reaches.
  - rewrite (bind_raise _ _ _ _ _ Hc). split; [now left | now intros _].
  - split; [right; exists e; split; [exact He | now rewrite (bind_raise _ _ _ _ _ Hc)]|].
    intros H. now rewrite (bind_raise _ _ _ _ _ (Hok H)).
Qed.

(** ** Computations that draw *)

Lemma draws_iff (c : M unit) (e e' : list draw_op) (ok ok' : Prop) (w : world) :
  draws c e ok w -> e = e' -> (ok' <-> ok) -> draws c e' ok' w.
Proof. intros [H1 H2] <- H. split; [exact H1 | now rewrite H]. Qed.

Lemma draws_mret (w : world) : draws (mret tt) [] True w.
Proof. split; [left; cbn; now rewrite add_ops_nil | easy]. Qed.

Lemma accepted_fill (c : color) : accepted (Fill c) = true.
Proof. reflexivity. Qed.

Lemma draws_emit_fill (c : color) (w : world) : draws (emit (Fill c)) [Fill c] True w.
Proof. split; [now left | easy]. Qed.

Lemma draws_emit_update (w : world) : draws (emit DisplayUpdate) [DisplayUpdate] True w.
Proof. split; [now left | easy]. Qed.

Lemma draws_call (op : draw_op) (w : world) : draws (call op) [op] True w.
Proof.
  unfold draws, call, accepted. cbn [forallb]. destruct (rejection op) as [e|] eqn:Hr.
  - split.
    + right. exists [], e. split; [apply prefix_nil|].
      split; [right; now exists op | now rewrite add_ops_nil].
    + split; [intros [_ [=]] | intros [=]].
  - split; [now left | easy].
Qed.

Lemma draws_bind {A} (c : M A) (k : A -> M unit) (v : A) (e : list draw_op)
    (ok1 ok2 : Prop) (w : world) :
  yields c v ok1 w -> draws (k v) e ok2 w -> draws (c ≫= k) e (ok1 /\ ok2) w.
Proof.
  intros [[Hc | (x & Hx & Hc)] Hok1] [Hk Hok2]; unfold draws.
  - rewrite (bind_run _ _ _ _ _ Hc). split; [exact Hk|].
    rewrite <- Hok2. split; [tauto | intros H; split; [split; [now apply Hok1 | tauto] | tauto]].
  - rewrite (bind_raise _ _ _ _ _ Hc). split.
    + right. exists [], x. split; [apply prefix_nil|].
      split; [now left | now rewrite add_ops_nil].
    + split; [|discriminate]. intros [[H _] _]. apply Hok1 in H. congruence.
Qed.

Lemma draws_seq (c1 c2 : M unit) (e1 e2 : list draw_op) (ok1 ok2 : Prop) (w : world) :
  draws c1 e1 ok1 w -> draws c2 e2 ok2 (add_ops e1 w) ->
  draws (c1 ;; c2) (e1 ++ e2) (ok1 /\ ok2) w.
Proof.
  intros [[H1 | (ops & x & Hp & Hx & H1)] Hok1] [H2 Hok2]; unfold draws.
  - rewrite (bind_run _ _ _ _ _ H1). rewrite H1 in Hok1. cbn [fst] in Hok1.
    rewrite forallb_app, andb_true_iff. split.
    + destruct H2 as [H2 | (ops & x & Hp & Hx & H2)]; rewrite H2, add_ops_app.
      * now left.
      * right. exists (e1 ++ ops), x. split; [now apply prefix_app | easy].
    + rewrite <- Hok2. tauto.
  - rewrite (bind_raise _ _ _ _ _ H1). rewrite H1 in Hok1. cbn [fst] in Hok1.
    split.
    + right. exists ops, x. split; [now apply prefix_app_r | easy].
    + rewrite forallb_app, andb_true_iff. split; [|discriminate].
      intros [[Ha _] [Hb _]]. destruct Hok1 as [Hok1 _].
      discriminate (Hok1 (conj Ha Hb)).
Qed.

Lemma draws_for_each {A} (l : list A) (body : A -> M unit) (g : A -> draw_op)
    (okx : A -> Prop) :
  (forall x w, In x l -> draws (body x) [g x] (okx x) w) ->
  forall w, draws (for_each l body) (map g l) (Forall okx l) w.
Proof.
  induction l as [|x l IH]; intros Hbody w.
  - eapply draws_iff; [apply draws_mret | reflexivity|]. split; [easy | constructor].
  - cbn [for_each map].
    eapply draws_iff;
      [eapply draws_seq; [apply Hbody; now left | apply IH; intros; apply Hbody; now right]
      | reflexivity |].
    split; [intros H; now inversion H | intros [H1 H2]; now constructor].
Qed.

(** What a computation that draws leaves. *)
Lemma draws_ok (c : M unit) (e : list draw_op) (ok : Prop) (w : world) :
  draws c e ok w -> fst (c w) = Ok tt -> c w = (Ok tt, add_ops e w).
Proof.
  intros [[H | (ops & x & _ & _ & H)] _] Hf; [exact H|].
  rewrite H in Hf. discriminate.
Qed.

Lemma draws_run (c : M unit) (e : list draw_op) (ok : Prop) (w : world) :
  draws c e ok w -> ok -> forallb accepted e = true -> c w = (Ok tt, add_ops e w).
Proof.
  intros H Hok Ha. apply (draws_ok _ _ _ _ H). now apply H.
Qed.

Lemma draws_world (c : M unit) (e : list draw_op) (ok : Prop) (w : world) :
  draws c e ok w ->
  exists ops : list draw_op,
    snd (c w) = add_ops ops w /\ ops `prefix_of` e
    /\ (fst (c w) = Ok tt -> ops = e).
Proof.
  intros [[H | (ops & x & Hp & _ & H)] _]; rewrite H.
  - exists e. now repeat split.
  - exists ops. repeat split; [exact Hp | discriminate].
Qed.

Lemma draws_raises (c : M unit) (e : list draw_op) (ok : Prop) (w : world) (x : exn) :
  draws c e ok w -> fst (c w) = Raise x -> raisable x.
Proof.
  intros [[H | (ops & y & _ & Hy & H)] _]; rewrite H; [discriminate|].
  now intros [= <-].
Qed.

(** ** The drawing methods *)

Ltac yield_step Hc :=
  first [ apply yields_get_self | apply yields_mret | apply yields_addM
        | apply yields_subM | apply yields_mulM | apply yields_radiansM
        | apply yields_cosM | apply yields_sinM
        | apply yields_getitem; apply (complete_key _ _ Hc); key_in ].

Ltac draw_steps Hc :=
  repeat first
    [ apply draws_call | apply draws_mret | apply draws_emit_fill
    | eapply draws_bind; [yield_step Hc | cbv beta] ].

Lemma __draw_circle_draws (centre : Z * Z) (r : Z) (c : color) (w : world) :
  draws (__draw_circle centre r c) (filled_circle centre r c) True w.
Proof.
  unfold __draw_circle.
  eapply draws_iff; [eapply draws_seq; apply draws_call | reflexivity | tauto].
Qed.

Lemma __draw_info_panel_draws (theme : gmap string color) (w : world) (date : str) :
  complete theme -> current_date (self w) = Some date ->
  draws (__draw_info_panel theme)
        [Blit (date ++ lit " | " ++ weather (self w)) true
              (colour theme "text_color") (font (self w))
              (fst (position (self w)), 50)] True w.
Proof.
  intros Hc Hd. unfold __draw_info_panel.
  eapply draws_iff; [|reflexivity|].
  - eapply draws_bind; [apply yields_get_self | cbv beta].
    rewrite Hd. draw_steps Hc.
  - tauto.
Qed.

Lemma __draw_info_panel_unset (theme : gmap string color) (w : world) :
  current_date (self w) = None ->
  __draw_info_panel theme w = (Raise (AttributeError "current_date"), w).
Proof.
  intros Hd. unfold __draw_info_panel.
  erewrite bind_run by apply get_self_run. rewrite Hd. reflexivity.
Qed.

Lemma __draw_face_draws (theme : gmap string color) (w : world) :
  complete theme ->
  draws (__draw_face theme) (face_ops theme (self w)) True w.
Proof.
  intros Hc. unfold __draw_face.
  eapply draws_iff; [|reflexivity|].
  - eapply draws_bind; [apply yields_get_self | cbv beta].
    eapply draws_bind; [yield_step Hc | cbv beta].
    eapply draws_seq; [apply __draw_circle_draws|].
    eapply draws_bind; [yield_step Hc | cbv beta].
    eapply draws_seq; [apply __draw_circle_draws|].
    eapply draws_bind; [yield_step Hc | cbv beta].
    apply __draw_circle_draws.
  - tauto.
Qed.

(** The angles of the hour marks are small. *)
Lemma mark_angles_table :
  forallb (fun i => safe (Int (i * 30))
                    && negb (is_infinity (radians (Int (i * 30)))))
          (seqZ 0 12) = true.
Proof. vm_compute. reflexivity. Qed.

Lemma __draw_hour_marks_draws (theme : gmap string color) (w : world) :
  complete theme ->
  draws (__draw_hour_marks theme) (mark_ops theme (self w))
        (safe (Int (size (self w) - 20)) && safe (Int (size (self w) - 40))
         && safe (Int (fst (position (self w))))
         && safe (Int (snd (position (self w)))) = true) w.
Proof.
  intros Hc. unfold __draw_hour_marks.
  eapply draws_iff; [|reflexivity|].
  - eapply draws_bind; [apply yields_get_self | cbv beta].
    apply (draws_for_each (seqZ 0 12) _
             (fun i => hour_mark (self w) (colour theme "mark_color") (i * 30))
             (fun _ => safe (Int (size (self w) - 20)) && safe (Int (size (self w) - 40))
         && safe (Int (fst (position (self w))))
         && safe (Int (snd (position (self w)))) = true)).
    intros i w' Hi.
    eapply draws_iff; [draw_steps Hc | reflexivity |].
    pose proof (proj1 (forallb_forall _ _) mark_angles_table i Hi) as Ht.
    cbv beta in Ht. apply andb_true_iff in Ht as [Hs Hinf].
    apply negb_true_iff in Hinf.
    change (Int i * Int 30)%num with (Int (i * 30)).
    rewrite !num_mul_flt_r, !convertible_flt_r, !andb_true_iff. tauto.
  - split.
    + intros H. split; [exact I|]. apply Forall_forall. intros x _. exact H.
    + intros [_ H].
      exact (proj1 (Forall_forall _ _) H 0 ltac:(apply elem_of_seqZ; lia)).
Qed.

Lemma convertible_offset (x : Z) (f : float) :
  convertible (Int x + Flt f)%num (Int 5) = true.
Proof. cbn [num_add convertible safe andb]. apply safe_small. lia. Qed.

Ltac hand_conditions :=
  unfold hand_ok, angle_ok;
  rewrite ?num_mul_flt_r, ?convertible_offset, ?convertible_flt_r,
    ?andb_true_iff, ?negb_true_iff;
  tauto.

Lemma __draw_hand_draws (angle length : num) (width : Z) (c : color)
    (shadow : bool) (theme : gmap string color) (w : world) :
  (shadow = true -> is_Some (theme !! "shadow"%string)) ->
  draws (__draw_hand angle length width c shadow theme)
        (if shadow then shadowed theme (hand (self w) angle length width c)
         else [hand (self w) angle length width c])
        (hand_ok (self w) angle length = true) w.
Proof.
  intros Hk. unfold __draw_hand.
  destruct shadow.
  - eapply draws_iff.
    + eapply draws_bind; [apply yields_get_self | cbv beta].
      do 8 (eapply draws_bind; [yield_step I | cbv beta]).
      eapply draws_seq; [|apply draws_call].
      do 8 (eapply draws_bind; [yield_step I | cbv beta]).
      eapply draws_bind; [apply yields_getitem; now apply Hk | cbv beta].
      apply draws_call.
    + reflexivity.
    + hand_conditions.
  - eapply draws_iff.
    + eapply draws_bind; [apply yields_get_self | cbv beta].
      do 8 (eapply draws_bind; [yield_step I | cbv beta]).
      eapply draws_seq; [apply draws_mret | apply draws_call].
    + reflexivity.
    + hand_conditions.
Qed.

Lemma yields_get_theme (now : datetime.t) (w : world) :
  yields (get_theme now) (theme_at now) True w.
Proof.
  split; [left; apply get_theme_run|]. split; [intros _; apply get_theme_run | easy].
Qed.

Lemma yields_hour_angleM (s : AnalogClock) (w : world) :
  yields (hour_angleM s) (hour_angle s)
         (safe (Int (minute s)) && safe (Int (hour s * 30)) = true) w.
Proof.
  unfold hour_angleM, hour_angle. eapply yields_iff.
  - eapply yields_bind; [apply yields_mulM | cbv beta].
    eapply yields_bind; [apply yields_mulM | cbv beta].
    apply yields_addM.
  - cbn [num_mul to_float]. rewrite !convertible_flt_r, andb_true_iff.
    cbn [convertible]. intuition.
Qed.

Lemma yields_minute_angleM (s : AnalogClock) (w : world) :
  yields (minute_angleM s) (minute_angle s) True w.
Proof.
  unfold minute_angleM, minute_angle. eapply yields_iff; [apply yields_mulM|].
  cbn [convertible]. tauto.
Qed.

Lemma yields_second_angleM (s : AnalogClock) (w : world) :
  yields (second_angleM s) (second_angle s) True w.
Proof.
  unfold second_angleM, second_angle. eapply yields_iff; [apply yields_mulM|].
  rewrite convertible_small by lia. rewrite orb_true_r. tauto.
Qed.

(** [draw] on a clock whose date is set: it issues [frame_ops] or a first part
    of it, and returns exactly when every call is accepted and the
    arithmetic raises nothing. *)
Lemma draw_draws (now : datetime.t) (w : world) (date : str) :
  current_date (self w) = Some date ->
  draws (draw now) (frame_ops (theme_at now) (self w) date)
        (safe (Int (size (self w) - 20)) && safe (Int (size (self w) - 40))
         && safe (Int (size (self w)))
         && safe (Int (fst (position (self w))))
         && safe (Int (snd (position (self w))))
         && safe (Int (minute (self w))) && safe (Int (hour (self w) * 30))
         && angle_ok (hour_angle (self w)) && angle_ok (minute_angle (self w))
         && angle_ok (second_angle (self w)) = true) w.
Proof.
  clear strftime. intros Hd. pose proof (theme_at_complete now) as Hc.
  assert (Hk : true = true -> is_Some (theme_at now !! "shadow"%string))
    by (intros _; apply (complete_key _ _ Hc); key_in).
  unfold draw. eapply draws_iff.
  - eapply draws_bind; [apply yields_get_theme | cbv beta].
    eapply draws_bind; [yield_step Hc | cbv beta].
    eapply draws_seq; [apply draws_emit_fill|].
    eapply draws_seq; [apply __draw_info_panel_draws; [exact Hc | exact Hd]|].
    eapply draws_seq; [apply __draw_face_draws; exact Hc|].
    eapply draws_seq; [apply __draw_hour_marks_draws; exact Hc|].
    eapply draws_bind; [apply yields_get_self | cbv beta].
    eapply draws_bind; [apply yields_hour_angleM | cbv beta].
    eapply draws_bind; [apply yields_mulM | cbv beta].
    eapply draws_bind; [yield_step Hc | cbv beta].
    eapply draws_seq; [apply (__draw_hand_draws _ _ _ _ true); exact Hk|].
    eapply draws_bind; [apply yields_get_self | cbv beta].
    eapply draws_bind; [apply yields_minute_angleM | cbv beta].
    eapply draws_bind; [apply yields_mulM | cbv beta].
    eapply draws_bind; [yield_step Hc | cbv beta].
    eapply draws_seq; [apply (__draw_hand_draws _ _ _ _ true); exact Hk|].
    eapply draws_bind; [apply yields_get_self | cbv beta].
    eapply draws_bind; [apply yields_second_angleM | cbv beta].
    eapply draws_bind; [apply yields_mulM | cbv beta].
    eapply draws_bind; [yield_step Hc | cbv beta].
    eapply draws_seq; [apply (__draw_hand_draws _ _ _ _ true); exact Hk|].
    eapply draws_bind; [apply yields_get_self | cbv beta].
    eapply draws_bind; [yield_step Hc | cbv beta].
    apply __draw_circle_draws.
  - unfold frame_ops, info_ops, hand_ops, hour_hand, minute_hand, second_hand, cap_ops.
    cbn [self add_ops]. rewrite <- ?app_assoc. reflexivity.
  - cbn [self add_ops]. unfold hand_ok.
    rewrite ?num_mul_flt_r, ?convertible_flt_r, ?andb_true_iff.
    cbn [safe]. tauto.
Qed.

(** [draw] on a clock whose date is not set yet: the background is filled,
    then the info panel raises. *)
Lemma draw_unset (now : datetime.t) (w : world) :
  current_date (self w) = None ->
  draw now w
  = (Raise (AttributeError "current_date"),
     add_ops [Fill (colour (theme_at now) "background")] w).
Proof.
  intros Hd. pose proof (theme_at_complete now) as Hc.
  unfold draw. erewrite bind_run by apply get_theme_run.
  erewrite bind_run
    by (apply getitem_run; apply (complete_key _ _ Hc); key_in).
  erewrite bind_run by apply emit_run.
  erewrite bind_raise by (apply __draw_info_panel_unset; exact Hd).
  reflexivity.
Qed.

(** The face circles are accepted only within 16 bits, where nothing
    overflows. *)
Lemma accepted_circle (x y r : Z) (c : color) :
  accepted (AACircle x y r c) = true ->
  int16 x = true /\ int16 y = true /\ int16 r = true.
Proof.
  unfold accepted, rejection, known_rejection.
  destruct (int16 x && int16 y && int16 r) eqn:H; cbn [negb]; [|discriminate].
  intros _. now rewrite !andb_true_iff in H.
Qed.

(** [draw] returns exactly on a drawable clock. *)
Lemma draw_returns_iff (now : datetime.t) (w : world) :
  fst (draw now w) = Ok tt <-> drawable now (self w) = true.
Proof.
  clear strftime.
  unfold drawable. destruct (current_date (self w)) as [date|] eqn:Hd.
  - rewrite <- (proj2 (draw_draws now w date Hd)).
    rewrite !andb_true_iff. split; [tauto|].
    intros (((((Ha & Hm) & Hh) & H1) & H2) & H3).
    split; [|exact Ha]. repeat split; try assumption.
    all: unfold frame_ops, face_ops, filled_circle in Ha;
      rewrite !forallb_app in Ha; cbn [forallb] in Ha;
      rewrite !andb_true_iff in Ha;
      destruct Ha as (_ & ((Hc & _) & _) & _);
      apply accepted_circle in Hc as (Hx & Hy & Hr);
      apply int16_range in Hx, Hy, Hr; apply safe_small; lia.
  - rewrite (draw_unset now w Hd). split; discriminate.
Qed.

(** What [draw] does in every case. *)
Lemma draw_cases (now : datetime.t) (w : world) :
  let expected := frame_ops (theme_at now) (self w) (default [] (current_date (self w))) in
  (drawable now (self w) = true /\ draw now w = (Ok tt, add_ops expected w))
  \/ (drawable now (self w) = false
      /\ exists (ops : list draw_op) (e : exn),
           ops `prefix_of` expected
           /\ (raisable e
               \/ e = AttributeError "current_date" /\ current_date (self w) = None)
           /\ draw now w = (Raise e, add_ops ops w)).
Proof.
  cbv zeta. pose proof (draw_returns_iff now w) as Hiff.
  destruct (current_date (self w)) as [date|] eqn:Hd; cbn [default].
  - destruct (draw_draws now w date Hd) as [[H | (ops & e & Hp & He & H)] _].
    + left. split; [apply Hiff; now rewrite H | exact H].
    + right. split; [|exists ops, e; now repeat split; try left].
      rewrite H in Hiff. cbn [fst] in Hiff.
      destruct (drawable now (self w)); [|reflexivity].
      discriminate (proj2 Hiff eq_refl).
  - right. split; [unfold drawable; now rewrite Hd|].
    exists [Fill (colour (theme_at now) "background")], (AttributeError "current_date").
    split; [now exists (Blit (lit " | " ++ weather (self w)) true
                  (colour (theme_at now) "text_color") (font (self w))
                  ((position (self w)).1, 50)
                :: face_ops (theme_at now) (self w) ++ mark_ops (theme_at now) (self w)
                   ++ hand_ops (theme_at now) (self w) ++ cap_ops (theme_at now) (self w))|].
    split; [now right | now apply draw_unset].
Qed.

(** [draw] on a drawable clock. *)
Lemma draw_run (now : datetime.t) (w : world) (date : str) :
  current_date (self w) = Some date -> fst (draw now w) = Ok tt ->
  draw now w = (Ok tt, add_ops (frame_ops (theme_at now) (self w) date) w).
Proof. intros Hd. apply (draws_ok _ _ _ _ (draw_draws now w date Hd)). Qed.



(** A KeyError of a drawing call is pygame's own. *)
Lemma rejection_key_error (op : draw_op) (key : string) :
  rejection op = Some (KeyError key) -> pygame_refuses op = Some (KeyError key).
Proof.
  unfold rejection, known_rejection.
  destruct op as [c|t a c fs ce|x y r c|x y r c|c p q wd|]; try discriminate;
    repeat match goal with |- context [if ?b then _ else _] => destruct b end;
    try discriminate; trivial.
Qed.

(** [__draw_hand] up to its last call, without and with the shadow. *)
Lemma __draw_hand_reaches (angle length : num) (width : Z) (c : color)
    (theme : gmap string color) (w : world) :
  reaches (__draw_hand angle length width c false theme)
          (call (hand (self w) angle length width c) w)
          (hand_ok (self w) angle length = true) w.
Proof.
  unfold __draw_hand. eapply reaches_iff.
  - eapply reaches_bind; [apply yields_get_self | cbv beta].
    do 8 (eapply reaches_bind; [yield_step I | cbv beta]).
    apply reaches_now. reflexivity.
  - intros H. revert H. hand_conditions.
Qed.

Lemma __draw_hand_unshadowed (angle length : num) (width : Z) (c : color)
    (theme : gmap string color) (w : world) :
  theme !! "shadow"%string = None ->
  reaches (__draw_hand angle length width c true theme)
          (Raise (KeyError "shadow"), w)
          (hand_ok (self w) angle length = true) w.
Proof.
  intros Hk. unfold __draw_hand. eapply reaches_iff.
  - eapply reaches_bind; [apply yields_get_self | cbv beta].
    do 8 (eapply reaches_bind; [yield_step I | cbv beta]).
    apply reaches_raise.
    do 8 (eapply reaches_bind; [yield_step I | cbv beta]).
    apply reaches_now. apply bind_raise. unfold getitem. rewrite Hk. reflexivity.
  - intros H. revert H. hand_conditions.
Qed.

(** ** Trimming *)

Lemma lstrip_split (s : str) :
  exists l : str, s = l ++ lstrip s /\ forallb isspace l = true.
Proof.
  induction s as [|c s [l [Hs Hl]]]; simpl.
  - exists []. split; reflexivity.
  - destruct (isspace c) eqn:Hc.
    + exists (c :: l). simpl. rewrite Hc, Hl. split; [congruence | reflexivity].
    + exists []. split; reflexivity.
Qed.

Lemma lstrip_head (s : str) (c : N) : head (lstrip s) = Some c -> isspace c = false.
Proof.
  induction s as [|a s IH]; simpl; [discriminate|].
  destruct (isspace a) eqn:Ha; [exact IH|].
  simpl. intros [= <-]. exact Ha.
Qed.

(** Skipping whitespace on the left keeps the last character. *)
Lemma lstrip_last (s : str) (c : N) :
  last (lstrip s) = Some c -> last s = Some c.
Proof.
  induction s as [|a s IH]; simpl; [discriminate|].
  destruct (isspace a); [|exact (fun H => H)].
  intros H. specialize (IH H). destruct s; [discriminate | exact IH].
Qed.

Lemma forallb_rev {A} (p : A -> bool) (l : list A) :
  forallb p (rev l) = forallb p l.
Proof.
  induction l as [|a l IH]; simpl; [reflexivity|].
  rewrite forallb_app, IH. simpl. rewrite andb_true_r. apply andb_comm.
Qed.

Lemma last_rev {A} (l : list A) : last (rev l) = head l.
Proof. destruct l as [|a l]; simpl; [reflexivity | apply last_snoc]. Qed.

Lemma head_rev {A} (l : list A) : head (rev l) = last l.
Proof. rewrite <- (rev_involutive l) at 2. symmetry. apply last_rev. Qed.

Lemma strip_trimmed (s : str) : trimmed s (strip s).
Proof.
  unfold trimmed, strip, rstrip.
  destruct (lstrip_split s) as [l [Hs Hl]].
  destruct (lstrip_split (rev (lstrip s))) as [r [Hr Hr']].
  exists l, (rev r). repeat split.
  - rewrite <- rev_app_distr, <- Hr, rev_involutive. exact Hs.
  - exact Hl.
  - rewrite forallb_rev. exact Hr'.
  - intros c Hc. apply (lstrip_head s).
    rewrite head_rev in Hc. apply lstrip_last in Hc.
    rewrite <- head_rev, rev_involutive in Hc. exact Hc.
  - intros c Hc. rewrite last_rev in Hc.
    exact (lstrip_head _ _ Hc).
Qed.

Lemma lstrip_app (l x : str) :
  forallb isspace l = true -> lstrip (l ++ x) = lstrip x.
Proof.
  induction l as [|c l IH]; simpl; [reflexivity|].
  intros H. apply andb_true_iff in H as [Hc Hl]. rewrite Hc. exact (IH Hl).
Qed.

Lemma lstrip_all (l : str) : forallb isspace l = true -> lstrip l = [].
Proof.
  intros H. rewrite <- (app_nil_r l). rewrite lstrip_app by exact H. reflexivity.
Qed.

Lemma lstrip_fixed (x : str) :
  (forall c, head x = Some c -> isspace c = false) -> lstrip x = x.
Proof.
  destruct x as [|c x]; simpl; [reflexivity|].
  intros H. now rewrite (H c eq_refl).
Qed.

(** [strip s] is the only trimmed form of [s]. *)
Lemma trimmed_strip (s t : str) : trimmed s t -> t = strip s.
Proof.
  intros (l & r & -> & Hl & Hr & Hhead & Hlast). unfold strip, rstrip.
  rewrite lstrip_app by exact Hl.
  destruct t as [|c t].
  - simpl. rewrite (lstrip_all r Hr). reflexivity.
  - rewrite (lstrip_fixed ((c :: t) ++ r)) by (intros c' [= <-]; apply Hhead; reflexivity).
    rewrite rev_app_distr, lstrip_app by (now rewrite forallb_rev).
    rewrite lstrip_fixed; [now rewrite rev_involutive|].
    intros c' Hc'. rewrite head_rev in Hc'. exact (Hlast c' Hc').
Qed.

Lemma strip_example : strip example_body = example_weather.
Proof. reflexivity. Qed.

(** ** update_weather *)

Lemma update_weather_returned (r : Response) (w : world) :
  update_weather (Returned r) w
  = (Ok tt,
     mkWorld (if status_code r =? 200
              then set_weather (strip (text r)) (self w) else self w)
             (window w) (requests w ++ [weather_url])).
Proof.
  unfold update_weather, try_except, requests_get, mbind, M_bind.
  destruct (status_code r =? 200); reflexivity.
Qed.

Lemma update_weather_raised (e : exn) (w : world) :
  update_weather (Raised e) w
  = (Ok tt,
     mkWorld (set_weather (lit "Weather unavailable") (self w))
             (window w) (requests w ++ [weather_url])).
Proof. reflexivity. Qed.

(** ** update and the main loop *)

Lemma update_run (now : datetime.t) (w : world) :
  update now w = (Ok tt, mkWorld (after_update now (self w)) (window w) (requests w)).
Proof. reflexivity. Qed.

Lemma handle_events_run (evs : list event) (w : world) :
  handle_events evs w
  = (if existsb (fun ev => match ev with QUIT => true | OtherEvent _ => false end) evs
     then Raise SystemExit else Ok tt, w).
Proof.
  unfold handle_events. induction evs as [|[|ty] evs IH]; simpl.
  - reflexivity.
  - reflexivity.
  - erewrite bind_run by reflexivity. exact IH.
Qed.

Lemma frame_ops_length (theme : gmap string color) (s : AnalogClock) (date : str) :
  length (frame_ops theme s date) = 28%nat.
Proof. reflexivity. Qed.

Lemma frame_ops_shows (theme : gmap string color) (s : AnalogClock) (date : str) :
  Forall (shows (weather s)) (frame_ops theme s date).
Proof.
  unfold frame_ops, info_ops, face_ops, mark_ops, hand_ops, cap_ops, shadowed,
    filled_circle.
  repeat (apply Forall_cons; split; [first [exact I | exists date; reflexivity]|]).
  apply Forall_nil_2.
Qed.

(** The next frame is drawable or not whatever time the clock showed. *)
Lemma frame_drawable_after (t : datetime.t) (s : AnalogClock) (f : frame) :
  frame_drawable (after_update t s) f = frame_drawable s f.
Proof. reflexivity. Qed.

(** An iteration with a QUIT event stops before touching anything. *)
Lemma iteration_quit (f : frame) (w : world) :
  quits f = true -> iteration f w = (Raise SystemExit, w).
Proof.
  intros Hq. unfold iteration, quits in *.
  erewrite bind_raise; [reflexivity|]. rewrite handle_events_run, Hq. reflexivity.
Qed.

(** An iteration without one updates the clock, then draws: the whole frame
    and the display update when the frame is drawable, and otherwise a first
    part of the frame before it raises. *)
Lemma iteration_cases (f : frame) (w : world) :
  quits f = false ->
  let s := after_update (now_update f) (self w) in
  let expected := frame_ops (theme_at (now_theme f)) s
                    (strftime (now_update f) "%A, %B %d, %Y") in
  (frame_drawable (self w) f = true
   /\ iteration f w
      = (Ok tt, mkWorld s (window w ++ expected ++ [DisplayUpdate]) (requests w)))
  \/ (frame_drawable (self w) f = false
      /\ exists (ops : list draw_op) (e : exn),
           ops `prefix_of` expected /\ raisable e
           /\ iteration f w = (Raise e, mkWorld s (window w ++ ops) (requests w))).
Proof.
  intros Hq. cbv zeta. unfold iteration, quits in *.
  erewrite bind_run by (rewrite handle_events_run, Hq; reflexivity).
  erewrite bind_run by apply update_run.
  match goal with |- context [mbind _ (draw ?t) ?w1] =>
    destruct (draw_cases t w1) as [[Hd H] | (Hd & ops & e & Hp & [He | [_ He]] & H)];
      [| |discriminate He]
  end.
  - left. split; [exact Hd|]. erewrite bind_run by exact H.
    rewrite emit_run, add_ops_app. reflexivity.
  - right. split; [exact Hd|]. exists ops, e. split; [exact Hp|].
    split; [exact He|]. erewrite bind_raise by exact H. reflexivity.
Qed.

Lemma iteration_run (f : frame) (w : world) :
  quits f = false -> frame_drawable (self w) f = true ->
  let s := after_update (now_update f) (self w) in
  iteration f w
  = (Ok tt,
     mkWorld s
       (window w
        ++ frame_ops (theme_at (now_theme f)) s
             (strftime (now_update f) "%A, %B %d, %Y")
        ++ [DisplayUpdate])
       (requests w)).
Proof.
  intros Hq Hd.
  destruct (iteration_cases f w Hq) as [[_ H] | [H _]]; [exact H | congruence].
Qed.

Lemma for_each_app {A} (l1 l2 : list A) (body : A -> M unit) (w : world) :
  for_each (l1 ++ l2) body w
  = match for_each l1 body w with
    | (Ok _, w') => for_each l2 body w'
    | (Raise e, w') => (Raise e, w')
    end.
Proof.
  revert w. induction l1 as [|x l1 IH]; intros w; [reflexivity|].
  cbn [app for_each]. unfold mbind, M_bind.
  destruct (body x w) as [[[]|e] w1]; [apply IH | reflexivity].
Qed.

(** The loop never writes the weather, the size, the centre, the font or
    [milliseconds], never sends a request, and every text it draws shows the
    weather it started with; it issues at most 29 calls per frame played. *)
Lemma main_loop_frozen (frames : list frame) (w : world) :
  let w' := snd (main_loop frames w) in
  weather (self w') = weather (self w)
  /\ requests w' = requests w
  /\ size (self w') = size (self w)
  /\ position (self w') = position (self w)
  /\ milliseconds (self w') = milliseconds (self w)
  /\ font (self w') = font (self w)
  /\ (0 <= hour (self w) < 12 -> 0 <= hour (self w') < 12)
  /\ exists ops : list draw_op,
       window w' = window w ++ ops
       /\ Forall (shows (weather (self w))) ops
       /\ (length ops <= 29 * length (played frames))%nat.
Proof.
  unfold main_loop. revert w.
  induction frames as [|f frames IH]; intros w; cbv zeta; cbn [for_each played].
  - cbn [mret M_ret snd]. repeat split; [tauto | tauto|].
    exists []. split; [now rewrite app_nil_r | split; [constructor | simpl; lia]].
  - destruct (quits f) eqn:Hq.
    + erewrite bind_raise by (apply iteration_quit; exact Hq).
      cbn [snd]. repeat split; [tauto | tauto|].
      exists []. split; [now rewrite app_nil_r | split; [constructor | simpl; lia]].
    + destruct (iteration_cases f w Hq) as [[_ H] | (_ & ops & e & Hp & _ & H)].
      * erewrite bind_run by exact H.
        set (w1 := mkWorld _ _ _).
        destruct (IH w1) as (Hw & Hr & Hsz & Hpos & Hms & Hfont & Hhour & ops & Hops & Hshow & Hlen).
        cbv zeta in *.
        rewrite Hw, Hr, Hsz, Hpos, Hms, Hfont.
        do 6 (split; [reflexivity|]). split.
        { intros _. apply Hhour. subst w1. cbn [self hour after_update].
          apply Z.mod_pos_bound. lia. }
        eexists. split; [rewrite Hops; subst w1; cbn [window];
                         rewrite <- !app_assoc; reflexivity|].
        split.
        { apply Forall_app; split; [apply (frame_ops_shows _ (after_update _ _))|].
          apply Forall_app; split; [repeat constructor | exact Hshow]. }
        rewrite !length_app, frame_ops_length. cbn [length]. lia.
      * erewrite bind_raise by exact H. cbn [snd self window requests].
        do 6 (split; [reflexivity|]). split.
        { intros _. cbn [hour after_update]. apply Z.mod_pos_bound. lia. }
        exists ops. split; [reflexivity|]. split.
        { destruct Hp as [k Hk].
          pose proof (frame_ops_shows (theme_at (now_theme f))
                        (after_update (now_update f) (self w))
                        (strftime (now_update f) "%A, %B %d, %Y")) as Hs.
          rewrite Hk in Hs. apply Forall_app in Hs. exact (proj1 Hs). }
        apply prefix_length in Hp. rewrite frame_ops_length in Hp.
        cbn [length]. lia.
Qed.

(** When every frame played is drawable, the loop plays them all: it ends
    with SystemExit at the first QUIT event, or returns when the frames are
    used up, and has issued 29 calls per frame played. *)
Lemma main_loop_played (frames : list frame) (w : world) :
  Forall (fun f => frame_drawable (self w) f = true) (played frames) ->
  fst (main_loop frames w)
  = (if existsb quits frames then Raise SystemExit else Ok tt)
  /\ length (window (snd (main_loop frames w)))
     = (length (window w) + 29 * length (played frames))%nat.
Proof.
  unfold main_loop. revert w.
  induction frames as [|f frames IH]; intros w Hall; cbn [for_each played existsb].
  - cbn [mret M_ret fst snd]. split; [reflexivity | simpl; lia].
  - cbn [played] in Hall. destruct (quits f) eqn:Hq.
    + erewrite bind_raise by (apply iteration_quit; exact Hq).
      cbn [fst snd orb]. split; [reflexivity | simpl; lia].
    + apply Forall_cons in Hall as [Hf Hall].
      erewrite bind_run by (apply iteration_run; [exact Hq | exact Hf]).
      cbn [orb]. set (w1 := mkWorld _ _ _).
      destruct (IH w1) as [Hres Hlen]; [exact Hall|].
      split; [exact Hres|]. rewrite Hlen. subst w1. cbn [window].
      rewrite !length_app, frame_ops_length. cbn [length]. lia.
Qed.

(** What the loop can raise. *)
Lemma main_loop_raises (frames : list frame) (w : world) (e : exn) :
  fst (main_loop frames w) = Raise e -> e = SystemExit \/ raisable e.
Proof.
  unfold main_loop. revert w.
  induction frames as [|f frames IH]; intros w; cbn [for_each].
  - discriminate.
  - destruct (quits f) eqn:Hq.
    + erewrite bind_raise by (apply iteration_quit; exact Hq).
      intros [= <-]. now left.
    + destruct (iteration_cases f w Hq) as [[_ H] | (_ & ops & x & _ & Hx & H)].
      * erewrite bind_run by exact H. apply IH.
      * erewrite bind_raise by exact H. intros [= <-]. now right.
Qed.

Lemma themes_differ : dark_theme <> light_theme.
Proof.
  intros H. apply (f_equal (fun m => m !! "shadow"%string)) in H.
  vm_compute in H. discriminate.
Qed.

Lemma update_weather_run (o : outcome) (w : world) :
  update_weather o w
  = (Ok tt,
     mkWorld (set_weather (weather_after o (weather (self w))) (self w))
             (window w) (requests w ++ [weather_url])).
Proof.
  destruct o as [r|e]; [|apply update_weather_raised].
  rewrite update_weather_returned. unfold weather_after.
  destruct (status_code r =? 200); [reflexivity|].
  now destruct w as [[] ? ?].
Qed.

Lemma __init___run (size0 : Z) (position0 : Z * Z) (o : outcome)
    (window0 : list draw_op) (requests0 : list string) :
  __init__ size0 position0 o window0 requests0
  = (Ok tt,
     mkWorld (set_weather (weather_after o (lit "Fetching..."))
                          (fresh_clock size0 position0))
             window0 (requests0 ++ [weather_url])).
Proof. unfold __init__. now rewrite update_weather_run. Qed.

Lemma program_run (o : outcome) (frames : list frame) :
  program o frames = main_loop frames (snd (__init__ 250 (300, 300) o [] [])).
Proof. unfold program. now rewrite __init___run. Qed.

(** ** Floats *)

Lemma SFltb_trans (x y z : spec_float) :
  SFltb x y = true -> SFltb y z = true -> SFltb x z = true.
Proof.
  unfold SFltb, SFcompare.
  change (Pos.compare_cont Eq) with Pos.compare.
  destruct x as [sx|sx| |sx mx ex], y as [sy|sy| |sy my ey], z as [sz|sz| |sz mz ez];
    try (intros; discriminate);
    repeat match goal with s : bool |- _ => destruct s end;
    try (intros; discriminate); try reflexivity.
  all: destruct (Z.compare_spec ex ey), (Z.compare_spec ey ez), (Z.compare_spec ex ez);
    try (intros; discriminate); try reflexivity; try lia; subst.
  all: destruct (Pos.compare_spec mx my), (Pos.compare_spec my mz),
         (Pos.compare_spec mx mz);
    try (intros; discriminate); try reflexivity; lia.
Qed.

(** [<] on floats is transitive. *)
Lemma float_ltb_trans (x y z : float) :
  (x <? y)%float = true -> (y <? z)%float = true -> (x <? z)%float = true.
Proof. rewrite !FloatAxioms.ltb_spec. apply SFltb_trans. Qed.

(** On machine integers [float(z)] is the primitive conversion. *)
Lemma float_of_int_uint63 (z : Z) :
  0 <= z < wB -> float_of_int z = of_uint63 (of_Z z).
Proof.
  intros Hz. unfold float_of_int.
  rewrite <- (SF2Prim_Prim2SF (of_uint63 (of_Z z))), of_uint63_spec, of_Z_spec.
  now rewrite Z.mod_small.
Qed.

Lemma of_Z_succ (z : Z) : (of_Z z + 1)%uint63 = of_Z (z + 1).
Proof.
  apply to_Z_inj. rewrite Uint63.add_spec, !of_Z_spec.
  change (to_Z 1) with 1. apply Z.add_mod_idemp_l. discriminate.
Qed.

(** After [n] steps the sweep is at microsecond [n], holds its angle, and its
    flag vouches for every step so far. *)
Lemma sweep_steps (s : float) (n : nat) :
  let st := nat_rect (fun _ => (int * float * bool)%type)
              (0%uint63, angle63 s 0, true) (fun _ => sweep_step s) n in
  fst (fst st) = of_Z (Z.of_nat n)
  /\ snd (fst st) = angle63 s (of_Z (Z.of_nat n))
  /\ (snd st = true ->
      forall k, 0 <= k < Z.of_nat n ->
        (angle63 s (of_Z k) <? angle63 s (of_Z (k + 1)))%float = true).
Proof.
  induction n as [|n IH]; cbv zeta.
  - repeat split. intros _ k Hk. simpl in Hk. lia.
  - cbn [nat_rect]. cbv zeta in IH.
    destruct (nat_rect _ _ _ n) as [[us prev] ok].
    cbn [fst snd] in IH. destruct IH as (Hus & Hprev & Hok). subst us prev.
    unfold sweep_step. cbn [fst snd]. rewrite of_Z_succ.
    replace (Z.of_nat (S n)) with (Z.of_nat n + 1) by lia.
    repeat split.
    intros Hb k Hk. apply andb_true_iff in Hb as [Hb1 Hb2].
    destruct (Z.eq_dec k (Z.of_nat n)) as [->|Hne]; [exact Hb2|].
    apply Hok; [exact Hb1 | lia].
Qed.

Lemma sweep_sound (s : float) :
  sweep s = true ->
  (forall k, 0 <= k < 999999 ->
     (angle63 s (of_Z k) <? angle63 s (of_Z (k + 1)))%float = true)
  /\ (angle63 s (of_Z 999999) <? 360)%float = true.
Proof.
  unfold sweep, sweep_verdict, sweep_end. rewrite Pos2Nat.inj_iter.
  pose proof (sweep_steps s (Pos.to_nat 999999)) as H. cbv zeta in H.
  rewrite positive_nat_Z in H.
  destruct (nat_rect _ _ _ (Pos.to_nat 999999)) as [[us last] ok].
  cbn [fst snd] in *. destruct H as (_ & Hlast & Hok). subst last.
  intros Hb. apply andb_true_iff in Hb as [H1 H2]. split; [|exact H2].
  intros k Hk. exact (Hok H1 k Hk).
Qed.

Lemma sweep_increasing (s : float) (a b : Z) :
  sweep s = true -> 0 <= a -> a < b -> b <= 999999 ->
  (angle63 s (of_Z a) <? angle63 s (of_Z b))%float = true.
Proof.
  intros Hs Ha Hab Hb. destruct (sweep_sound s Hs) as [Hstep _].
  assert (H : forall n : nat, a + 1 + Z.of_nat n <= 999999 ->
            (angle63 s (of_Z a) <? angle63 s (of_Z (a + 1 + Z.of_nat n)))%float = true).
  { induction n as [|n IH]; intros Hn.
    - replace (a + 1 + Z.of_nat 0) with (a + 1) by lia. apply Hstep. lia.
    - apply float_ltb_trans with (angle63 s (of_Z (a + 1 + Z.of_nat n))).
      + apply IH. lia.
      + replace (a + 1 + Z.of_nat (S n)) with (a + 1 + Z.of_nat n + 1) by lia.
        apply Hstep. lia. }
  replace b with (a + 1 + Z.of_nat (Z.to_nat (b - a - 1))) by lia.
  apply H. lia.
Qed.

Lemma sweep_below_360 (s : float) (a : Z) :
  sweep s = true -> 0 <= a <= 999999 ->
  (angle63 s (of_Z a) <? 360)%float = true.
Proof.
  intros Hs Ha. destruct (sweep_sound s Hs) as [_ Hlast].
  destruct (Z.eq_dec a 999999) as [->|Hne]; [exact Hlast|].
  apply float_ltb_trans with (angle63 s (of_Z 999999)); [|exact Hlast].
  apply sweep_increasing; [exact Hs | lia | lia | lia].
Qed.

(** The sweep succeeds for each of the 60 seconds. *)
Lemma sweep_all_ok :
  forallb (fun s => sweep (of_uint63 (of_Z s))) (seqZ 0 60) = true.
Proof. vm_compute. reflexivity. Qed.

Lemma forallb_seqZ (f : Z -> bool) (a n k : Z) :
  forallb f (seqZ a n) = true -> a <= k < a + n -> f k = true.
Proof.
  intros H Hk. apply (proj1 (forallb_forall f (seqZ a n)) H).
  apply list_elem_of_In, elem_of_seqZ. exact Hk.
Qed.

Lemma sweep_second (sec : Z) :
  0 <= sec < 60 -> sweep (of_uint63 (of_Z sec)) = true.
Proof.
  intros Hs.
  exact (forallb_seqZ (fun s => sweep (of_uint63 (of_Z s))) 0 60 sec sweep_all_ok Hs).
Qed.

(** The second-hand angle of a clock that [update] has run on. *)
Lemma second_angle_after_update (now : datetime.t) (s : AnalogClock) :
  datetime.valid now ->
  second_angle (after_update now s)
  = Flt (angle63 (of_uint63 (of_Z (datetime.second now)))
                 (of_Z (datetime.microsecond now))).
Proof.
  intros (_ & _ & Hs & Hus).
  unfold second_angle, after_update, angle63, truediv.
  cbn [second num_mul to_float].
  assert (HwB : wB = 9223372036854775808) by reflexivity.
  rewrite (float_of_int_uint63 (datetime.second now)) by lia.
  rewrite (float_of_int_uint63 (datetime.microsecond now)) by lia.
  reflexivity.
Qed.

Lemma hour_angle_table_ok :
  forallb (fun h =>
    forallb (fun m =>
      exact_in (Int h * Int 30 + Int m * Flt 0.5)%num
               (inject_Z (h * 30) + inject_Z m * (1 # 2))%Q 0%Q 360%Q)
      (seqZ 0 60))
    (seqZ 0 12) = true.
Proof. vm_compute. reflexivity. Qed.

Lemma exact_in_sound (n : num) (q lo hi : Q) :
  exact_in n q lo hi = true ->
  exists v : Q, num_value n = Some v /\ (v == q)%Q /\ (lo <= v)%Q /\ (v < hi)%Q.
Proof.
  unfold exact_in. destruct (num_value n) as [v|]; [|discriminate].
  rewrite !andb_true_iff, negb_true_iff. intros [[Heq Hlo] Hhi].
  exists v. split; [reflexivity|]. split; [now apply Qeq_bool_iff|].
  split; [now apply Qle_bool_iff|].
  apply Qnot_le_lt. intros Hle. apply Qle_bool_iff in Hle. congruence.
Qed.

Lemma hour_angle_table_at (h m : Z) :
  0 <= h < 12 -> 0 <= m < 60 ->
  exact_in (Int h * Int 30 + Int m * Flt 0.5)%num
           (inject_Z (h * 30) + inject_Z m * (1 # 2))%Q 0%Q 360%Q = true.
Proof.
  intros Hh Hm.
  pose proof (forallb_seqZ _ 0 12 h hour_angle_table_ok Hh) as H.
  exact (forallb_seqZ _ 0 60 m H Hm).
Qed.

(** ** The claims *)

(** C1, at the failing input: the constructor's request answered with status
    500 (and an empty body).  [update_weather] returns normally and the
    weather is still "Fetching...", not "Weather unavailable".  The fallback
    is stored only when the request raises ([update_weather_raised]). *)
Theorem update_weather_status_500_keeps_fetching :
  let w := mkWorld (fresh_clock 250 (300, 300)) [] [] in
  let w' := snd (update_weather (Returned (mkResponse 500 [])) w) in
  fst (update_weather (Returned (mkResponse 500 [])) w) = Ok tt
  /\ weather (self w') = lit "Fetching..."
  /\ weather (self w') <> lit "Weather unavailable".
Proof. repeat split. discriminate. Qed.

(** C2: when the request returns a response whose status is not 200,
    [update_weather] leaves the weather field (and the whole clock) as it
    was; at construction this leaves "Fetching...", which every later frame
    of the program displays and none changes. *)
Theorem update_weather_non_200_leaves_weather (r : Response) (w : world) :
  status_code r <> 200 ->
  update_weather (Returned r) w
  = (Ok tt, mkWorld (self w) (window w) (requests w ++ [weather_url]))
  /\ weather (self (snd (update_weather (Returned r) w))) = weather (self w)
  /\ forall frames : list frame,
       weather (self (snd (program (Returned r) frames))) = lit "Fetching..."
       /\ Forall (shows (lit "Fetching..."))
                 (window (snd (program (Returned r) frames))).
Proof.
  intros Hs. apply Z.eqb_neq in Hs.
  assert (Hrun : update_weather (Returned r) w
                 = (Ok tt, mkWorld (self w) (window w) (requests w ++ [weather_url])))
    by (rewrite update_weather_returned, Hs; reflexivity).
  split; [exact Hrun|]. split; [rewrite Hrun; reflexivity|].
  intros frames. rewrite program_run, __init___run.
  unfold weather_after. rewrite Hs. simpl snd.
  match goal with |- context [main_loop frames ?w0] =>
    destruct (main_loop_frozen frames w0)
      as (Hw & _ & _ & _ & _ & _ & _ & ops & Hops & Hshow & _)
  end.
  split; [exact Hw|]. rewrite Hops. exact Hshow.
Qed.

(** C3: when the request returns status 200, the weather field becomes the
    response body stripped: the body without its leading and trailing
    whitespace, and the only such text.  The body
    " +14(degree)C Partly cloudy " is stored as "+14(degree)C Partly cloudy". *)
Theorem update_weather_200_stores_trimmed_body (r : Response) (w : world) :
  status_code r = 200 ->
  let w' := snd (update_weather (Returned r) w) in
  fst (update_weather (Returned r) w) = Ok tt
  /\ weather (self w') = strip (text r)
  /\ trimmed (text r) (weather (self w'))
  /\ (forall t : str, trimmed (text r) t -> weather (self w') = t)
  /\ (text r = example_body -> weather (self w') = example_weather).
Proof.
  intros Hs. rewrite update_weather_returned.
  apply Z.eqb_eq in Hs. rewrite Hs. cbn [fst snd self set_weather weather].
  repeat split.
  - apply strip_trimmed.
  - intros t Ht. symmetry. exact (trimmed_strip _ _ Ht).
  - intros ->. apply strip_example.
Qed.

(** C4: [get_theme] returns the dark theme exactly when the hour it reads is
    at least 18 or below 6, and the light theme otherwise (for every hour, so
    for 0..23); 17:59:59 and 06:00:00 give light, 18:00:00 and 05:59:59
    give dark. *)
Theorem get_theme_dark_iff_night (now : datetime.t) (w : world) :
  let h := datetime.hour now in
  (get_theme now w = (Ok dark_theme, w) <-> 18 <= h \/ h < 6)
  /\ (get_theme now w = (Ok light_theme, w) <-> ~ (18 <= h \/ h < 6))
  /\ THEMES !! "dark"%string = Some dark_theme
  /\ THEMES !! "light"%string = Some light_theme
  /\ get_theme (datetime.mk 2025 3 23 17 59 59 999999) w = (Ok light_theme, w)
  /\ get_theme (datetime.mk 2025 3 23 18 0 0 0) w = (Ok dark_theme, w)
  /\ get_theme (datetime.mk 2025 3 23 5 59 59 999999) w = (Ok dark_theme, w)
  /\ get_theme (datetime.mk 2025 3 23 6 0 0 0) w = (Ok light_theme, w).
Proof.
  cbv zeta. rewrite get_theme_run. unfold theme_at.
  split; [|split; [|repeat split; reflexivity]].
  - split.
    + case_decide as H; [intros _; exact H|].
      intros E. exfalso. apply themes_differ. congruence.
    + intros H. rewrite decide_True by exact H. reflexivity.
  - split.
    + case_decide as H; [|intros _; exact H].
      intros E. exfalso. apply themes_differ. congruence.
    + intros H. rewrite decide_False by exact H. reflexivity.
Qed.

(** C5: for a clock reading with hour in 0..23 and minute in 0..59, the
    hour-hand angle of the clock [update] leaves is a finite float whose exact
    value is (hour mod 12) * 30 + minute * 0.5; it lies in [0, 360); [draw]
    computes it without an error; and whenever [draw] then returns normally,
    it is the angle of the hour hand drawn. *)
Theorem hour_angle_exact (now : datetime.t) (w : world) :
  0 <= datetime.hour now < 24 -> 0 <= datetime.minute now < 60 ->
  let s := self (snd (update now w)) in
  exists q : Q,
    num_value (hour_angle s) = Some q
    /\ (q == inject_Z (datetime.hour now mod 12 * 30)
             + inject_Z (datetime.minute now) * (1 # 2))%Q
    /\ (0 <= q)%Q /\ (q < 360)%Q
    /\ hour_angleM s (snd (update now w)) = (Ok (hour_angle s), snd (update now w))
    /\ forall t : datetime.t,
         fst (draw t (snd (update now w))) = Ok tt ->
         In (hand s (hour_angle s) (Int (size s) * Flt 0.5)%num 8
                  (colour (theme_at t) "hand_hour"))
            (window (snd (draw t (snd (update now w))))).
Proof.
  intros Hh Hm. cbv zeta. rewrite update_run. cbn [snd self].
  pose proof (Z.mod_pos_bound (datetime.hour now) 12 ltac:(lia)) as Hh12.
  destruct (exact_in_sound _ _ _ _
              (hour_angle_table_at (datetime.hour now mod 12) (datetime.minute now)
                 Hh12 Hm))
    as (v & Hv & Heq & Hlo & Hhi).
  exists v. split; [exact Hv|]. split; [exact Heq|].
  split; [exact Hlo|]. split; [exact Hhi|]. split.
  - apply yields_hour_angleM. cbn [after_update minute hour].
    rewrite !safe_small by lia. reflexivity.
  - intros t Hok.
    match goal with |- context [draw t ?w1] =>
      rewrite (draw_run t w1 (strftime now "%A, %B %d, %Y") eq_refl Hok)
    end.
    unfold add_ops, frame_ops, hand_ops, shadowed, hour_hand. cbn [snd window self].
    rewrite !in_app_iff. right. right. right. right. left. left.
    right. left. reflexivity.
Qed.

(** C6: for two clock readings in the same second, the later one (more
    microseconds) gives [update] a strictly larger second-hand angle
    (second + microsecond / 1_000_000) * 6; and every such angle is below
    360. *)
Theorem second_angle_increases (t1 t2 : datetime.t) (w1 w2 : world) :
  datetime.valid t1 -> datetime.valid t2 ->
  datetime.second t1 = datetime.second t2 ->
  datetime.microsecond t1 < datetime.microsecond t2 ->
  let a1 := second_angle (self (snd (update t1 w1))) in
  let a2 := second_angle (self (snd (update t2 w2))) in
  a1 = ((Int (datetime.second t1)
         + Flt (truediv (datetime.microsecond t1) 1000000)) * Int 6)%num
  /\ num_ltb a1 a2 = true
  /\ num_ltb a1 (Int 360) = true
  /\ num_ltb a2 (Int 360) = true.
Proof.
  intros V1 V2 Hsec Hus. cbv zeta. rewrite !update_run. cbn [snd self].
  split; [reflexivity|].
  rewrite (second_angle_after_update t1 _ V1), (second_angle_after_update t2 _ V2).
  unfold num_ltb. cbn [to_float]. change (float_of_int 360) with 360%float.
  destruct V1 as (_ & _ & Hs1 & Hu1), V2 as (_ & _ & Hs2 & Hu2).
  rewrite <- Hsec. pose proof (sweep_second _ Hs1) as Hsw.
  split; [apply sweep_increasing; [exact Hsw | lia | lia | lia]|].
  split; apply sweep_below_360; [exact Hsw | lia | exact Hsw | lia].
Qed.



(** C9: the program sends its one weather request while the clock is
    constructed; however many iterations of the main loop follow, they send
    no request and leave the weather field at its value after construction,
    and every info text drawn shows that value.  The same holds for the loop
    from any world. *)
Theorem weather_fetched_once_then_frozen (o : outcome) (frames : list frame) :
  let w0 := snd (__init__ 250 (300, 300) o [] []) in
  let w := snd (program o frames) in
  requests w0 = [weather_url]
  /\ requests w = [weather_url]
  /\ weather (self w) = weather (self w0)
  /\ Forall (shows (weather (self w0))) (window w)
  /\ forall w1 : world,
       weather (self (snd (main_loop frames w1))) = weather (self w1)
       /\ requests (snd (main_loop frames w1)) = requests w1.
Proof.
  cbv zeta. rewrite program_run, __init___run. simpl snd. simpl requests.
  match goal with |- context [main_loop frames ?w0] =>
    destruct (main_loop_frozen frames w0)
      as (Hw & Hr & _ & _ & _ & _ & _ & ops & Hops & Hshow & _)
  end.
  repeat split.
  - exact Hr.
  - exact Hw.
  - rewrite Hops. exact Hshow.
  - apply main_loop_frozen.
  - apply main_loop_frozen.
Qed.

(** C10: [draw] never writes to the clock: whatever the state, and whether
    [draw] returns or raises, the object afterwards is the object before, so
    size, position, hour, minute, second, milliseconds, current_date and
    weather are unchanged; the request log is untouched too. *)
Theorem draw_leaves_clock_unchanged (now : datetime.t) (w : world) :
  let w' := snd (draw now w) in
  self w' = self w
  /\ size (self w') = size (self w)
  /\ position (self w') = position (self w)
  /\ hour (self w') = hour (self w)
  /\ minute (self w') = minute (self w)
  /\ second (self w') = second (self w)
  /\ milliseconds (self w') = milliseconds (self w)
  /\ current_date (self w') = current_date (self w)
  /\ weather (self w') = weather (self w)
  /\ requests w' = requests w.
Proof.
  cbv zeta.
  assert (H : self (snd (draw now w)) = self w /\ requests (snd (draw now w)) = requests w).
  { destruct (draw_cases now w) as [[_ H] | (_ & ops & e & _ & _ & H)];
      rewrite H; split; reflexivity. }
  destruct H as [-> ->]. repeat split.
Qed.

(** ** Further properties of the methods *)

(** X1: [update_weather] never raises: whatever [requests.get] does (return
    any response, raise any exception), the call returns normally, sends
    exactly one request, draws nothing, and changes no attribute but
    [weather]; when [requests.get] raises, [weather] becomes
    "Weather unavailable". *)
Theorem update_weather_never_raises (o : outcome) (w : world) :
  let w' := snd (update_weather o w) in
  fst (update_weather o w) = Ok tt
  /\ requests w' = requests w ++ [weather_url]
  /\ window w' = window w
  /\ self w' = set_weather (weather (self w')) (self w)
  /\ (forall e : exn, o = Raised e -> weather (self w') = lit "Weather unavailable").
Proof.
  cbv zeta. rewrite update_weather_run. cbn [fst snd requests window self].
  repeat split. intros e ->. reflexivity.
Qed.

(** X2: a 200 response whose body is empty or all whitespace stores the empty
    string (not the fallback text, and not the previous weather). *)
Theorem update_weather_blank_body_stores_empty (r : Response) (w : world) :
  status_code r = 200 -> forallb isspace (text r) = true ->
  weather (self (snd (update_weather (Returned r) w))) = [].
Proof.
  intros Hs Hb. rewrite update_weather_returned.
  apply Z.eqb_eq in Hs. rewrite Hs. cbn [snd self set_weather weather].
  unfold strip. rewrite (lstrip_all _ Hb). reflexivity.
Qed.

(** X3: the constructor never fails and never draws: for every size,
    position and outcome of the request it returns normally with the window
    untouched and one request sent; the new clock has the given size and
    position, its three time fields and [milliseconds] at 0, no date yet, and
    as weather the stripped body (status 200), "Fetching..." (other status)
    or "Weather unavailable" (the request raised). *)
Theorem __init___constructs (size0 : Z) (position0 : Z * Z) (o : outcome)
    (window0 : list draw_op) (requests0 : list string) :
  let w := snd (__init__ size0 position0 o window0 requests0) in
  fst (__init__ size0 position0 o window0 requests0) = Ok tt
  /\ window w = window0
  /\ requests w = requests0 ++ [weather_url]
  /\ size (self w) = size0 /\ position (self w) = position0
  /\ hour (self w) = 0 /\ minute (self w) = 0 /\ second (self w) = Int 0
  /\ milliseconds (self w) = 0
  /\ current_date (self w) = None
  /\ weather (self w)
     = match o with
       | Returned r =>
           if status_code r =? 200 then strip (text r) else lit "Fetching..."
       | Raised _ => lit "Weather unavailable"
       end.
Proof. cbv zeta. rewrite __init___run. repeat split. Qed.

(** X4: [draw] on a clock that was never updated (its date is not set, as
    right after construction) fills the background and then raises
    AttributeError: one drawing call is issued, nothing of the clock face. *)
Theorem draw_before_update_raises (now : datetime.t) (w : world) :
  current_date (self w) = None ->
  fst (draw now w) = Raise (AttributeError "current_date")
  /\ window (snd (draw now w))
     = window w ++ [Fill (colour (theme_at now) "background")].
Proof. intros Hd. rewrite (draw_unset now w Hd). split; reflexivity. Qed.

(** X5: [draw] returns normally exactly on a drawable clock; so [update]
    followed by [draw] returns normally exactly when the clock [update]
    leaves is drawable, and then it has added exactly 28 drawing calls.  In
    every case the clock is left as [update] set it. *)
Theorem update_then_draw_succeeds (now t : datetime.t) (w : world) :
  (fst (draw t w) = Ok tt <-> drawable t (self w) = true)
  /\ (fst ((update now ;; draw t) w) = Ok tt
      <-> drawable t (after_update now (self w)) = true)
  /\ (drawable t (after_update now (self w)) = true ->
      length (window (snd ((update now ;; draw t) w)))
      = (length (window w) + 28)%nat)
  /\ self (snd ((update now ;; draw t) w)) = self (snd (update now w)).
Proof.
  split; [apply draw_returns_iff|].
  erewrite bind_run by apply update_run. rewrite update_run. cbn [snd self].
  split; [apply draw_returns_iff|]. split.
  - intros Hdr.
    match goal with |- context [draw t ?w1] =>
      rewrite (draw_run t w1 (strftime now "%A, %B %d, %Y") eq_refl
                 (proj2 (draw_returns_iff t w1) Hdr))
    end.
    unfold add_ops. cbn [snd window]. rewrite length_app. reflexivity.
  - match goal with |- context [draw t ?w1] =>
      destruct (draw_cases t w1) as [[_ H] | (_ & ops & e & _ & _ & H)]
    end; rewrite H; reflexivity.
Qed.

(** X6: [update] keeps nothing of the previous time: the clock after two
    updates is the clock after the second alone.  It always returns
    normally, and leaves size, position, milliseconds, weather, the window
    and the request log as they were. *)
Theorem update_overwrites (t1 t2 : datetime.t) (w : world) :
  update t2 (snd (update t1 w)) = update t2 w
  /\ fst (update t1 w) = Ok tt
  /\ size (self (snd (update t1 w))) = size (self w)
  /\ position (self (snd (update t1 w))) = position (self w)
  /\ milliseconds (self (snd (update t1 w))) = milliseconds (self w)
  /\ weather (self (snd (update t1 w))) = weather (self w)
  /\ window (snd (update t1 w)) = window w
  /\ requests (snd (update t1 w)) = requests w.
Proof. rewrite !update_run. repeat split. Qed.

Lemma theme_keys_exact (pairs : list (string * color)) (key : string) :
  pairs.*1 = theme_keys ->
  (list_to_map pairs : gmap string color) !! key = None <-> key ∉ theme_keys.
Proof. intros <-. symmetry. apply not_elem_of_list_to_map. Qed.

(** X7: [draw] raises no KeyError of its own: each theme defines exactly the
    ten keys [draw] reads (a lookup fails exactly outside them) and [THEMES]
    holds exactly "light" and "dark".  What [draw] raises is the
    AttributeError of a clock without a date, an OverflowError or ValueError
    of the arithmetic, or what a drawing call raised; it is a KeyError only
    if pygame raised that KeyError. *)
Theorem draw_raises_no_key_error (now : datetime.t) (w : world) :
  (forall e : exn,
     fst (draw now w) = Raise e ->
     e = AttributeError "current_date" /\ current_date (self w) = None
     \/ e = OverflowError \/ e = ValueError
     \/ exists op : draw_op, rejection op = Some e)
  /\ (forall key : string,
        fst (draw now w) = Raise (KeyError key) ->
        exists op : draw_op, pygame_refuses op = Some (KeyError key))
  /\ (forall key : string, dark_theme !! key = None <-> key ∉ theme_keys)
  /\ (forall key : string, light_theme !! key = None <-> key ∉ theme_keys)
  /\ (forall key : string,
        THEMES !! key = None <-> key ∉ ["light"; "dark"]%string).
Proof.
  clear strftime.
  assert (Hr : forall e : exn,
     fst (draw now w) = Raise e ->
     e = AttributeError "current_date" /\ current_date (self w) = None
     \/ e = OverflowError \/ e = ValueError
     \/ exists op : draw_op, rejection op = Some e).
  { intros e.
    destruct (draw_cases now w) as [[_ H] | (_ & ops & x & _ & Hx & H)];
      rewrite H; cbn [fst]; [discriminate|].
    intros [= <-]. destruct Hx as [[[-> | ->] | Hop] | Hattr]; tauto. }
  split; [exact Hr|]. split; [|split; [|split]].
  - intros key Hk.
    destruct (Hr _ Hk) as [[[=] _] | [[=] | [[=] | [op Hop]]]].
    exists op. exact (rejection_key_error op key Hop).
  - intros key. now apply theme_keys_exact.
  - intros key. now apply theme_keys_exact.
  - intros key. symmetry. apply (not_elem_of_list_to_map
      [("light", light_theme); ("dark", dark_theme)]%string).
Qed.

(** X8: with its shadow switched off [__draw_hand] never reads the theme (any
    theme gives the same run, even an empty one) and issues at most one call,
    the hand: it returns, having issued it, exactly when the arithmetic of
    the hand raises nothing and pygame accepts the segment; otherwise it
    raises and has drawn nothing. *)
Theorem __draw_hand_without_shadow (angle length : num) (width : Z) (c : color)
    (theme : gmap string color) (w : world) :
  let op := hand (self w) angle length width c in
  (forall theme' : gmap string color,
     __draw_hand angle length width c false theme' w
     = __draw_hand angle length width c false theme w)
  /\ (__draw_hand angle length width c false theme w = (Ok tt, add_ops [op] w)
      \/ exists e : exn,
           __draw_hand angle length width c false theme w = (Raise e, w))
  /\ (fst (__draw_hand angle length width c false theme w) = Ok tt
      <-> hand_ok (self w) angle length = true /\ accepted op = true).
Proof.
  cbv zeta. split; [reflexivity|]. split.
  - destruct (__draw_hand_reaches angle length width c theme w) as [[H | (e & _ & H)] _].
    + rewrite H. unfold call. destruct (rejection _) as [e|].
      * right. now exists e.
      * now left.
    + right. now exists e.
  - pose proof (__draw_hand_draws angle length width c false theme w
                  ltac:(discriminate)) as [_ H].
    cbn [forallb] in H. rewrite andb_true_r in H. symmetry. exact H.
Qed.

(** X9: with its shadow switched on and a theme that has no "shadow" colour,
    [__draw_hand] raises before it draws anything, the hand itself is not
    drawn either: it raises KeyError at the lookup, unless the arithmetic
    before the lookup has raised OverflowError or ValueError already. *)
Theorem __draw_hand_missing_shadow (angle length : num) (width : Z) (c : color)
    (theme : gmap string color) (w : world) :
  theme !! "shadow"%string = None ->
  (exists e : exn,
     (e = KeyError "shadow" \/ e = OverflowError \/ e = ValueError)
     /\ __draw_hand angle length width c true theme w = (Raise e, w))
  /\ (hand_ok (self w) angle length = true ->
      __draw_hand angle length width c true theme w = (Raise (KeyError "shadow"), w)).
Proof.
  intros Hk.
  destruct (__draw_hand_unshadowed angle length width c theme w Hk)
    as [[H | (e & He & H)] Hok].
  - split; [exists (KeyError "shadow"); split; [now left | exact H] | exact Hok].
  - split; [exists e; split; [right; exact He | exact H] | exact Hok].
Qed.

(** ** Further properties of the main loop *)

(** X10: an iteration whose events hold a QUIT event, at any place among
    them, raises SystemExit and does nothing else: the clock is not updated
    and nothing is drawn. *)
Theorem iteration_quit_stops (f : frame) (w : world) :
  In QUIT (events f) -> iteration f w = (Raise SystemExit, w).
Proof.
  intros Hq. apply iteration_quit.
  unfold quits. apply existsb_exists. exists QUIT. split; [exact Hq | reflexivity].
Qed.

(** X11: the main loop ends at the first frame with a QUIT event: when the
    frames before it were played without an error, it raises SystemExit in the
    state they left, and the frames after it change nothing; when one of the
    frames before it raised, the loop ended there. *)
Theorem main_loop_stops_at_first_quit (before after : list frame) (f : frame)
    (w : world) :
  quits f = true ->
  (fst (main_loop before w) = Ok tt ->
   main_loop (before ++ f :: after) w = (Raise SystemExit, snd (main_loop before w)))
  /\ (forall e : exn,
        fst (main_loop before w) = Raise e ->
        main_loop (before ++ f :: after) w = main_loop before w)
  /\ (existsb quits before = false ->
      Forall (fun g => frame_drawable (self w) g = true) before ->
      fst (main_loop before w) = Ok tt).
Proof.
  intros Hf. unfold main_loop. rewrite for_each_app.
  destruct (for_each before iteration w) as [[[]|x] w1] eqn:Hb; cbn [fst snd].
  - split; [|split; [discriminate | reflexivity]].
    intros _. cbn [for_each]. erewrite bind_raise by (apply iteration_quit; exact Hf).
    reflexivity.
  - split; [discriminate|]. split; [reflexivity|].
    intros Hq Hall.
    assert (Hp : played before = before).
    { clear -Hq. induction before as [|g before IH]; [reflexivity|].
      cbn [existsb] in Hq. apply orb_false_iff in Hq as [Hg Hq].
      cbn [played]. rewrite Hg, IH by exact Hq. reflexivity. }
    rewrite <- Hp in Hall. apply main_loop_played in Hall as [Hres _].
    unfold main_loop in Hres. rewrite Hb, Hq in Hres. exact Hres.
Qed.

(** X12: an iteration without a QUIT event whose frame is drawable returns
    normally, sets the clock from the reading of [update], and issues 29
    drawing calls: the 28 of one frame, hands and date from that reading,
    colours from the theme of the reading [get_theme] takes, and the display
    update last.  When the frame is not drawable the iteration raises, the
    clock set all the same and a first part of the frame drawn. *)
Theorem iteration_draws_one_frame (f : frame) (w : world) :
  quits f = false ->
  let s := after_update (now_update f) (self w) in
  let ops := frame_ops (theme_at (now_theme f)) s
               (strftime (now_update f) "%A, %B %d, %Y") in
  (frame_drawable (self w) f = true ->
   iteration f w = (Ok tt, mkWorld s (window w ++ ops ++ [DisplayUpdate]) (requests w)))
  /\ (frame_drawable (self w) f = false ->
      exists (drawn : list draw_op) (e : exn),
        drawn `prefix_of` ops
        /\ iteration f w = (Raise e, mkWorld s (window w ++ drawn) (requests w)))
  /\ length (ops ++ [DisplayUpdate]) = 29%nat
  /\ s = self (snd (update (now_update f) w)).
Proof.
  intros Hq. cbv zeta.
  split; [intros Hd; now apply iteration_run|].
  split; [|repeat split].
  intros Hd.
  destruct (iteration_cases f w Hq) as [[H _] | (_ & ops & e & Hp & _ & H)];
    [congruence|].
  now exists ops, e.
Qed.

(** X13: a run of the program in which every frame played is drawable raises
    nothing but SystemExit, and that exactly when some frame holds a QUIT
    event, whatever the outcome of the weather request.  In any run, what the
    program raises is SystemExit, an OverflowError or ValueError of the
    arithmetic, or what a drawing call raised. *)
Theorem program_raises_only_system_exit (o : outcome) (frames : list frame) :
  let s0 := self (snd (__init__ 250 (300, 300) o [] [])) in
  (Forall (fun f => frame_drawable s0 f = true) (played frames) ->
   fst (program o frames)
   = if existsb quits frames then Raise SystemExit else Ok tt)
  /\ (forall e : exn,
        fst (program o frames) = Raise e ->
        e = SystemExit \/ e = OverflowError \/ e = ValueError
        \/ exists op : draw_op, rejection op = Some e).
Proof.
  cbv zeta. rewrite program_run. split.
  - intros Hall. now apply main_loop_played.
  - intros e He. apply main_loop_raises in He as [-> | [[-> | ->] | Hop]]; tauto.
Qed.

(** X14: throughout a run of the program the clock keeps size 250, centre
    (300, 300), [milliseconds] 0 (the attribute is never written after
    construction) and an hour field in 0..11; the window holds at most 29
    drawing calls for each frame played before the first QUIT, and exactly
    29 for each when every frame played is drawable. *)
Theorem program_invariants (o : outcome) (frames : list frame) :
  let s0 := self (snd (__init__ 250 (300, 300) o [] [])) in
  let w := snd (program o frames) in
  size (self w) = 250
  /\ position (self w) = (300, 300)
  /\ milliseconds (self w) = 0
  /\ 0 <= hour (self w) < 12
  /\ (length (window w) <= 29 * length (played frames))%nat
  /\ (Forall (fun f => frame_drawable s0 f = true) (played frames) ->
      length (window w) = (29 * length (played frames))%nat).
Proof.
  cbv zeta. rewrite program_run.
  match goal with |- context [main_loop frames ?w0] =>
    destruct (main_loop_frozen frames w0)
      as (_ & _ & Hsz & Hpos & Hms & _ & Hhour & ops & Hops & _ & Hlen);
    pose proof (main_loop_played frames w0) as Hplayed
  end.
  cbv zeta in *. rewrite Hsz, Hpos, Hms, Hops.
  rewrite __init___run in *. cbn [snd self window] in *.
  split; [reflexivity|]. split; [reflexivity|]. split; [reflexivity|].
  split; [apply Hhour; simpl; lia|]. split; [exact Hlen|].
  intros Hall. apply Hplayed in Hall as [_ Hl]. rewrite Hops in Hl.
  cbn [length] in Hl. rewrite length_app in *. cbn [length] in *. lia.
Qed.

(** ** Further properties of the angles and lengths *)

Lemma SFleb_ltb_trans (x y z : spec_float) :
  SFleb x y = true -> SFltb y z = true -> SFltb x z = true.
Proof.
  unfold SFleb, SFltb, SFcompare.
  change (Pos.compare_cont Eq) with Pos.compare.
  destruct x as [sx|sx| |sx mx ex], y as [sy|sy| |sy my ey], z as [sz|sz| |sz mz ez];
    try (intros; discriminate);
    repeat match goal with s : bool |- _ => destruct s end;
    try (intros; discriminate); try reflexivity.
  all: destruct (Z.compare_spec ex ey), (Z.compare_spec ey ez), (Z.compare_spec ex ez);
    try (intros; discriminate); try reflexivity; try lia; subst.
  all: destruct (Pos.compare_spec mx my), (Pos.compare_spec my mz),
         (Pos.compare_spec mx mz);
    try (intros; discriminate); try reflexivity; lia.
Qed.

Lemma SFltb_leb (x y : spec_float) : SFltb x y = true -> SFleb x y = true.
Proof. unfold SFltb, SFleb. now destruct (SFcompare x y) as [[| |]|]. Qed.

(** [x <= y < z] on floats gives [x <= z]. *)
Lemma float_leb_ltb_leb (x y z : float) :
  (x <=? y)%float = true -> (y <? z)%float = true -> (x <=? z)%float = true.
Proof.
  rewrite !FloatAxioms.leb_spec, FloatAxioms.ltb_spec. intros H1 H2.
  apply SFltb_leb. exact (SFleb_ltb_trans _ _ _ H1 H2).
Qed.

(** At microsecond 0 the angle of second [s] is exactly [6 * s], and not
    negative. *)
Lemma second_start_table :
  forallb (fun s =>
    exact_in (Flt (angle63 (of_uint63 (of_Z s)) 0)) (inject_Z (6 * s)) 0%Q 360%Q
    && (0 <=? angle63 (of_uint63 (of_Z s)) 0)%float)
    (seqZ 0 60) = true.
Proof. vm_compute. reflexivity. Qed.

(** The last angle of a second is below the first one of the next. *)
Lemma second_boundary_table :
  forallb (fun s =>
    (angle63 (of_uint63 (of_Z s)) (of_Z 999999)
     <? angle63 (of_uint63 (of_Z (s + 1))) (of_Z 0))%float)
    (seqZ 0 59) = true.
Proof. vm_compute. reflexivity. Qed.

Lemma angle_next_second (s us : Z) :
  0 <= s < 59 -> 0 <= us <= 999999 ->
  (angle63 (of_uint63 (of_Z s)) (of_Z us)
   <? angle63 (of_uint63 (of_Z (s + 1))) (of_Z 0))%float = true.
Proof.
  intros Hs Hus.
  pose proof (forallb_seqZ _ 0 59 s second_boundary_table ltac:(lia)) as Hb.
  cbv beta in Hb.
  destruct (Z.eq_dec us 999999) as [->|Hne]; [exact Hb|].
  apply float_ltb_trans with (angle63 (of_uint63 (of_Z s)) (of_Z 999999)); [|exact Hb].
  apply sweep_increasing; [apply sweep_second; lia | lia | lia | lia].
Qed.

Lemma angle_later_second (s1 s2 us1 : Z) :
  0 <= s1 -> s1 < s2 -> s2 <= 59 -> 0 <= us1 <= 999999 ->
  (angle63 (of_uint63 (of_Z s1)) (of_Z us1)
   <? angle63 (of_uint63 (of_Z s2)) (of_Z 0))%float = true.
Proof.
  intros H1 H12 H2 Hus.
  assert (H : forall n : nat, s1 + 1 + Z.of_nat n <= 59 ->
            (angle63 (of_uint63 (of_Z s1)) (of_Z us1)
             <? angle63 (of_uint63 (of_Z (s1 + 1 + Z.of_nat n))) (of_Z 0))%float = true).
  { induction n as [|n IH]; intros Hn.
    - replace (s1 + 1 + Z.of_nat 0) with (s1 + 1) by lia.
      apply angle_next_second; lia.
    - apply float_ltb_trans
        with (angle63 (of_uint63 (of_Z (s1 + 1 + Z.of_nat n))) (of_Z 0)).
      + apply IH. lia.
      + replace (s1 + 1 + Z.of_nat (S n)) with (s1 + 1 + Z.of_nat n + 1) by lia.
        apply angle_next_second; lia. }
  replace s2 with (s1 + 1 + Z.of_nat (Z.to_nat (s2 - s1 - 1))) by lia.
  apply H. lia.
Qed.

(** X15: over a whole minute the second-hand angle that [update] yields is
    strictly increasing in (second, microsecond): a later second, or the same
    second and a later microsecond, gives a larger angle, so the hand never
    steps back between two frames of the same minute. *)
Theorem second_angle_increases_over_minute (t1 t2 : datetime.t) (w1 w2 : world) :
  datetime.valid t1 -> datetime.valid t2 ->
  datetime.second t1 < datetime.second t2
  \/ (datetime.second t1 = datetime.second t2
      /\ datetime.microsecond t1 < datetime.microsecond t2) ->
  num_ltb (second_angle (self (snd (update t1 w1))))
          (second_angle (self (snd (update t2 w2)))) = true.
Proof.
  intros V1 V2 Hlt. rewrite !update_run. cbn [snd self].
  rewrite (second_angle_after_update t1 _ V1), (second_angle_after_update t2 _ V2).
  unfold num_ltb. cbn [to_float].
  destruct V1 as (_ & _ & Hs1 & Hu1), V2 as (_ & _ & Hs2 & Hu2).
  destruct Hlt as [Hs | [Hs Hu]].
  - destruct (Z.eq_dec (datetime.microsecond t2) 0) as [->|Hne].
    + apply angle_later_second; lia.
    + apply float_ltb_trans
        with (angle63 (of_uint63 (of_Z (datetime.second t2))) (of_Z 0)).
      * apply angle_later_second; lia.
      * apply sweep_increasing; [apply sweep_second; lia | lia | lia | lia].
  - rewrite <- Hs.
    apply sweep_increasing; [apply sweep_second; lia | lia | lia | lia].
Qed.

(** X16: the second-hand angle that [update] yields is never negative, and
    at a whole second (microsecond 0) it is exactly 6 degrees times the
    second: there the division and the two roundings lose nothing. *)
Theorem second_angle_on_the_tick (t : datetime.t) (w : world) :
  datetime.valid t ->
  exists a : float,
    second_angle (self (snd (update t w))) = Flt a
    /\ (0 <=? a)%float = true
    /\ (datetime.microsecond t = 0 ->
        exists q : Q, float_value a = Some q
                      /\ (q == inject_Z (6 * datetime.second t))%Q).
Proof.
  intros V. rewrite update_run. cbn [snd self].
  rewrite (second_angle_after_update t _ V).
  destruct V as (_ & _ & Hs & Hu).
  pose proof (forallb_seqZ _ 0 60 (datetime.second t) second_start_table ltac:(lia))
    as Ht.
  cbv beta in Ht. apply andb_true_iff in Ht as [Hex H0].
  eexists. split; [reflexivity|]. split.
  - destruct (Z.eq_dec (datetime.microsecond t) 0) as [->|Hne]; [exact H0|].
    apply float_leb_ltb_leb
      with (angle63 (of_uint63 (of_Z (datetime.second t))) (of_Z 0)); [exact H0|].
    apply sweep_increasing; [apply sweep_second; lia | lia | lia | lia].
  - intros ->. destruct (exact_in_sound _ _ _ _ Hex) as (v & Hv & Heq & _).
    exists v. split; [exact Hv | exact Heq].
Qed.

Lemma scan_steps (p : int -> bool) (n : nat) :
  let st := nat_rect (fun _ => (int * bool)%type)
              (0%uint63, true) (fun _ => scan_step p) n in
  fst st = of_Z (Z.of_nat n)
  /\ (snd st = true -> forall k, 1 <= k <= Z.of_nat n -> p (of_Z k) = true).
Proof.
  induction n as [|n IH]; cbv zeta.
  - split; [reflexivity|]. intros _ k Hk. simpl in Hk. lia.
  - cbn [nat_rect]. cbv zeta in IH.
    destruct (nat_rect _ _ _ n) as [i ok].
    cbn [fst snd] in IH. destruct IH as (Hi & Hok). subst i.
    unfold scan_step. cbn [fst snd]. rewrite of_Z_succ.
    replace (Z.of_nat (S n)) with (Z.of_nat n + 1) by lia.
    split; [reflexivity|].
    intros Hb k Hk. apply andb_true_iff in Hb as [Hb1 Hb2].
    destruct (Z.eq_dec k (Z.of_nat n + 1)) as [->|Hne]; [exact Hb2|].
    apply Hok; [exact Hb1 | lia].
Qed.

Lemma scan_sound (p : int -> bool) (n : positive) (k : Z) :
  scan p n = true -> 1 <= k <= Z.pos n -> p (of_Z k) = true.
Proof.
  unfold scan. rewrite Pos2Nat.inj_iter.
  pose proof (scan_steps p (Pos.to_nat n)) as H. cbv zeta in H.
  rewrite positive_nat_Z in H.
  destruct (nat_rect _ _ _ (Pos.to_nat n)) as [i ok].
  cbn [fst snd] in *. destruct H as (_ & Hok).
  intros Hb Hk. exact (Hok Hb k Hk).
Qed.

Lemma lengths_table : scan lengths_ordered 32767 = true.
Proof. vm_compute. reflexivity. Qed.

(** X17: for every clock size from 1 to 32767 (the 16-bit range of the
    circle-drawing calls) the hand lengths [draw] computes, size * 0.5,
    size * 0.7 and size * 0.9 in floats, are strictly ordered hour < minute
    < second, and the second hand is shorter than the face radius [size]. *)
Theorem hand_lengths_ordered (s : AnalogClock) :
  0 < size s <= 32767 ->
  num_ltb (Int (size s) * Flt 0.5)%num (Int (size s) * Flt 0.7)%num = true
  /\ num_ltb (Int (size s) * Flt 0.7)%num (Int (size s) * Flt 0.9)%num = true
  /\ num_ltb (Int (size s) * Flt 0.9)%num (Int (size s)) = true.
Proof.
  intros Hsz. unfold num_ltb, num_mul. cbn [to_float].
  assert (HwB : wB = 9223372036854775808) by reflexivity.
  rewrite (float_of_int_uint63 (size s)) by lia.
  pose proof (scan_sound lengths_ordered 32767 (size s) lengths_table ltac:(lia)) as H.
  unfold lengths_ordered in H. cbv zeta in H.
  apply andb_true_iff in H as [H H3]. apply andb_true_iff in H as [H1 H2].
  repeat split; assumption.
Qed.

End AnalogClock.

(** ** The claims at sample inputs *)

(** A 503 answer leaves the constructor's "Fetching...". *)
Lemma update_weather_non_200_witness :
  weather (self (snd (update_weather
                        (Returned (mkResponse 503 (lit "Service Unavailable")))
                        world0)))
  = lit "Fetching...".
Proof.
  exact (proj1 (proj2 (update_weather_non_200_leaves_weather cos0 sin0 strftime0
                         accepts_all
                         (mkResponse 503 (lit "Service Unavailable")) world0
                         ltac:(simpl; lia)))).
Defined.

(** The example body is stored trimmed. *)
Lemma update_weather_200_witness :
  weather (self (snd (update_weather (Returned (mkResponse 200 example_body)) world0)))
  = example_weather.
Proof.
  exact (proj2 (proj2 (proj2 (proj2 (update_weather_200_stores_trimmed_body
                                       (mkResponse 200 example_body) world0 eq_refl))))
               eq_refl).
Defined.

Lemma now0_valid : datetime.valid now0.
Proof. unfold datetime.valid, now0. simpl. lia. Defined.

Lemma now1_valid : datetime.valid now1.
Proof. unfold datetime.valid, now1. simpl. lia. Defined.

(** At 14:30 the hour hand is at 75 degrees, and [draw] draws it there. *)
Lemma hour_angle_witness :
  let s := self (snd (update strftime0 now0 world0)) in
  exists q : Q,
    num_value (hour_angle s) = Some q
    /\ (q == 75)%Q
    /\ In (hand cos0 sin0 s (hour_angle s) (Int (size s) * Flt 0.5)%num 8 [45; 45; 45])
          (window (snd (draw cos0 sin0 accepts_all now0
                          (snd (update strftime0 now0 world0))))).
Proof.
  destruct (hour_angle_exact cos0 sin0 strftime0 accepts_all now0 world0
              ltac:(simpl; lia) ltac:(simpl; lia))
    as (q & Hq & Heq & _ & _ & _ & Hin).
  exists q. split; [exact Hq|]. split; [rewrite Heq; reflexivity|].
  apply (Hin now0). vm_compute. reflexivity.
Defined.

(** One microsecond later the second hand is further on. *)
Lemma second_angle_witness :
  num_ltb (second_angle (self (snd (update strftime0 now0 world0))))
          (second_angle (self (snd (update strftime0 now1 world0)))) = true.
Proof.
  exact (proj1 (proj2 (second_angle_increases strftime0 now0 now1 world0 world0
                         now0_valid now1_valid eq_refl ltac:(simpl; lia)))).
Defined.




(** ** The further properties at sample inputs *)

(** A 200 answer of two blanks empties the weather. *)
Lemma update_weather_blank_body_witness :
  weather (self (snd (update_weather (Returned (mkResponse 200 (lit "  "))) world0)))
  = [].
Proof.
  exact (update_weather_blank_body_stores_empty
           (mkResponse 200 (lit "  ")) world0 eq_refl eq_refl).
Defined.

(** Drawing the freshly constructed clock raises. *)
Lemma draw_before_update_witness :
  fst (draw cos0 sin0 accepts_all now0 world0) = Raise (AttributeError "current_date").
Proof.
  exact (proj1 (draw_before_update_raises cos0 sin0 accepts_all now0 world0 eq_refl)).
Defined.

(** [update] then [draw] on the freshly constructed clock returns and adds
    28 calls. *)
Lemma update_then_draw_witness :
  fst ((update strftime0 now0 ;; draw cos0 sin0 accepts_all now0) world0) = Ok tt
  /\ length (window (snd ((update strftime0 now0 ;; draw cos0 sin0 accepts_all now0)
                            world0)))
     = 28%nat.
Proof.
  destruct (update_then_draw_succeeds cos0 sin0 strftime0 accepts_all now0 now0 world0)
    as (_ & Hiff & Hlen & _).
  split; [apply Hiff; vm_compute; reflexivity|].
  rewrite Hlen; [reflexivity | vm_compute; reflexivity].
Defined.

(** A hand with shadow under the empty theme raises KeyError and draws
    nothing. *)
Lemma __draw_hand_missing_shadow_witness :
  __draw_hand cos0 sin0 accepts_all (Int 0) (Int 100) 8 [0; 0; 0] true ∅ world0
  = (Raise (KeyError "shadow"), world0).
Proof.
  apply (__draw_hand_missing_shadow cos0 sin0 accepts_all (Int 0) (Int 100) 8
           [0; 0; 0] ∅ world0 (lookup_empty _)).
  vm_compute. reflexivity.
Defined.

(** A QUIT event behind another event stops the iteration. *)
Lemma iteration_quit_witness :
  iteration cos0 sin0 strftime0 accepts_all frame_quit world0
  = (Raise SystemExit, world0).
Proof.
  exact (iteration_quit_stops cos0 sin0 strftime0 accepts_all frame_quit world0
           (or_intror (or_introl eq_refl))).
Defined.

(** One frame is played, the quitting one stops the loop, the third is not
    reached. *)
Lemma main_loop_quit_witness :
  main_loop cos0 sin0 strftime0 accepts_all [frame0; frame_quit; frame0] world0
  = (Raise SystemExit, snd (main_loop cos0 sin0 strftime0 accepts_all [frame0] world0)).
Proof.
  assert (Hok : fst (main_loop cos0 sin0 strftime0 accepts_all [frame0] world0) = Ok tt)
    by (vm_compute; reflexivity).
  exact (proj1 (main_loop_stops_at_first_quit cos0 sin0 strftime0 accepts_all
                  [frame0] [frame0] frame_quit world0 eq_refl) Hok).
Defined.

(** An ordinary frame is drawn. *)
Lemma iteration_frame_witness :
  fst (iteration cos0 sin0 strftime0 accepts_all frame0 world0) = Ok tt.
Proof.
  rewrite (proj1 (iteration_draws_one_frame cos0 sin0 strftime0 accepts_all
                    frame0 world0 eq_refl));
    [reflexivity | vm_compute; reflexivity].
Defined.

(** A run of three frames, the second one quitting: one frame is played, 29
    calls are issued, and the program ends with SystemExit. *)
Lemma program_exit_witness :
  fst (program cos0 sin0 strftime0 accepts_all
         (Returned (mkResponse 200 example_body)) [frame0; frame_quit; frame0])
  = Raise SystemExit.
Proof.
  apply (proj1 (program_raises_only_system_exit cos0 sin0 strftime0 accepts_all
                  (Returned (mkResponse 200 example_body))
                  [frame0; frame_quit; frame0])).
  constructor; [vm_compute; reflexivity | constructor].
Defined.

Lemma program_invariants_witness :
  length (window (snd (program cos0 sin0 strftime0 accepts_all
                         (Returned (mkResponse 200 example_body))
                         [frame0; frame_quit; frame0])))
  = 29%nat.
Proof.
  apply (program_invariants cos0 sin0 strftime0 accepts_all
           (Returned (mkResponse 200 example_body)) [frame0; frame_quit; frame0]).
  constructor; [vm_compute; reflexivity | constructor].
Defined.

Lemma now2_valid : datetime.valid now2.
Proof. unfold datetime.valid, now2. simpl. lia. Defined.

(** From 14:30:15.250000 to 14:30:16 the second hand moves on. *)
Lemma second_angle_minute_witness :
  num_ltb (second_angle (self (snd (update strftime0 now0 world0))))
          (second_angle (self (snd (update strftime0 now2 world0)))) = true.
Proof.
  apply (second_angle_increases_over_minute strftime0 now0 now2 world0 world0
           now0_valid now2_valid).
  left. unfold now0, now2. simpl. lia.
Defined.

(** At 14:30:16 sharp the second hand is at 96 degrees. *)
Lemma second_angle_tick_witness :
  exists a : float,
    second_angle (self (snd (update strftime0 now2 world0))) = Flt a
    /\ exists q : Q, float_value a = Some q /\ (q == 96)%Q.
Proof.
  destruct (second_angle_on_the_tick strftime0 now2 world0 now2_valid)
    as (a & Ha & _ & Hq).
  exists a. split; [exact Ha|].
  destruct (Hq eq_refl) as (q & Hv & Heq).
  exists q. split; [exact Hv | exact Heq].
Defined.

(** The hands of the 250-pixel clock are ordered by length. *)
Lemma hand_lengths_witness :
  num_ltb (Int 250 * Flt 0.5)%num (Int 250 * Flt 0.7)%num = true.
Proof.
  exact (proj1 (hand_lengths_ordered (fresh_clock 250 (300, 300))
                  ltac:(unfold fresh_clock; simpl; lia))).
Defined.
